(** * US tax calculator (mcps/accountant/tax_calculator.py)

    A shallow embedding of the tax engine and the proofs of its
    specification.

    Numbers.  The Python code computes on [float]; here every amount and
    rate is an exact rational ([Q], compared with [==]), so [0.9235] is
    9235/10000 and no binary rounding error is modelled.  Inputs are
    finite numbers (no NaN, no infinite amount); the only infinite value
    is the [float('inf')] upper bound of the last bracket of a schedule,
    modelled by [Inf].  Dependent counts are Python [int]s, modelled by
    [Z].

    Binary64.  Where a result depends on the rounding error of the floats
    themselves, the code is embedded a second time on binary64 floats, in
    [Module Binary64]: a value that falls on a decimal tie in exact
    arithmetic (7,064.775) lies beside it in binary64, and [round(x, 2)]
    then differs by 0.01 from the rounding of the exact value.

    Strings.  A state code is a string of one-byte characters and
    [str.upper] maps the letters a-z to A-Z.

    Dictionaries keyed by a string or by a filing status are finite maps;
    [d.get(k, v)] is [default v (d !! k)]. *)

From stdpp Require Import base option gmap strings.
From Stdlib Require Import ZArith QArith Qround Qminmax Qabs Lqa Lia.
From Stdlib Require Import Ascii String.
From Stdlib Require Import PrimFloat FloatOps SpecFloat.
#[local] Open Scope Q_scope.
#[local] Set Warnings "-inexact-float".

(** ** Comparisons, [min], [max] and [round] of Python *)

Definition Qleb (x y : Q) : bool := Qle_bool x y.
Definition Qltb (x y : Q) : bool := negb (Qle_bool y x).

(** [min(a, b)] keeps [a] unless [b < a]; [max(a, b)] keeps [a] unless
    [b > a]. *)
Definition py_min (a b : Q) : Q := if Qltb b a then b else a.
Definition py_max (a b : Q) : Q := if Qltb a b then b else a.

(** [round(x, ndigits)]: the nearest multiple of [10^-ndigits], a tie
    going to the even one. *)
Definition round_half_even (y : Q) : Z :=
  let f := Qfloor y in
  let r := y - inject_Z f in
  if Qltb r (1 # 2) then f
  else if Qltb (1 # 2) r then (f + 1)%Z
  else if Z.even f then f else (f + 1)%Z.

Definition py_round (x : Q) (ndigits : nat) : Q :=
  let s := inject_Z (10 ^ Z.of_nat ndigits) in
  inject_Z (round_half_even (x * s)) / s.

(** ** Upper bounds of brackets *)

Inductive bound : Type :=
| Fin (q : Q)
| Inf.

(** [x >= b] *)
Definition ge_bound (x : Q) (b : bound) : bool :=
  match b with
  | Fin q => Qleb q x
  | Inf => false
  end.

(** [min(x, b)], with [x] finite *)
Definition min_bound (x : Q) (b : bound) : Q :=
  match b with
  | Fin q => py_min x q
  | Inf => x
  end.

(** [max(x, b)] *)
Definition max_bound (x : Q) (b : bound) : bound :=
  match b with
  | Fin q => Fin (py_max x q)
  | Inf => Inf
  end.

(** ** Filing status *)

Inductive FilingStatus : Type :=
| SINGLE
| MARRIED_JOINT
| MARRIED_SEPARATE
| HEAD_HOUSEHOLD
| WIDOW.

#[global] Instance FilingStatus_eq_dec : EqDecision FilingStatus.
Proof. solve_decision. Defined.

Definition FilingStatus_to_nat (s : FilingStatus) : nat :=
  match s with
  | SINGLE => 0
  | MARRIED_JOINT => 1
  | MARRIED_SEPARATE => 2
  | HEAD_HOUSEHOLD => 3
  | WIDOW => 4
  end.

Definition FilingStatus_of_nat (n : nat) : FilingStatus :=
  match n with
  | 0%nat => SINGLE
  | 1%nat => MARRIED_JOINT
  | 2%nat => MARRIED_SEPARATE
  | 3%nat => HEAD_HOUSEHOLD
  | _ => WIDOW
  end.

#[global] Instance FilingStatus_countable : Countable FilingStatus.
Proof.
  apply (inj_countable' FilingStatus_to_nat FilingStatus_of_nat).
  intros []; reflexivity.
Defined.

(** The value of the enum member, as [FilingStatus.X.value]. *)
Definition FilingStatus_value (s : FilingStatus) : string :=
  match s with
  | SINGLE => "single"
  | MARRIED_JOINT => "married_joint"
  | MARRIED_SEPARATE => "married_separate"
  | HEAD_HOUSEHOLD => "head_household"
  | WIDOW => "qualifying_widow"
  end.

(** ** 2024 tax tables *)

Definition brackets : Type := list (bound * Q).

Definition FEDERAL_BRACKETS : gmap FilingStatus brackets :=
  <[ SINGLE :=
       [ (Fin 11600, 0.10); (Fin 47150, 0.12); (Fin 100525, 0.22);
         (Fin 191950, 0.24); (Fin 243725, 0.32); (Fin 609350, 0.35);
         (Inf, 0.37) ] ]>
  (<[ MARRIED_JOINT :=
       [ (Fin 23200, 0.10); (Fin 94300, 0.12); (Fin 201050, 0.22);
         (Fin 383900, 0.24); (Fin 487450, 0.32); (Fin 731200, 0.35);
         (Inf, 0.37) ] ]>
  (<[ MARRIED_SEPARATE :=
       [ (Fin 11600, 0.10); (Fin 47150, 0.12); (Fin 100525, 0.22);
         (Fin 191950, 0.24); (Fin 243725, 0.32); (Fin 365600, 0.35);
         (Inf, 0.37) ] ]>
  (<[ HEAD_HOUSEHOLD :=
       [ (Fin 16550, 0.10); (Fin 63100, 0.12); (Fin 100500, 0.22);
         (Fin 191950, 0.24); (Fin 243700, 0.32); (Fin 609350, 0.35);
         (Inf, 0.37) ] ]> ∅))).

(** Every member of the enum is a key of [STANDARD_DEDUCTION], which the
    code indexes with [STANDARD_DEDUCTION[status]]. *)
Definition STANDARD_DEDUCTION (s : FilingStatus) : Q :=
  match s with
  | SINGLE => 14600
  | MARRIED_JOINT => 29200
  | MARRIED_SEPARATE => 14600
  | HEAD_HOUSEHOLD => 21900
  | WIDOW => 29200
  end.

Definition ADDITIONAL_DEDUCTION : gmap FilingStatus Q :=
  <[ SINGLE := 1950 ]>
  (<[ MARRIED_JOINT := 1550 ]>
  (<[ MARRIED_SEPARATE := 1550 ]>
  (<[ HEAD_HOUSEHOLD := 1950 ]> ∅))).

Definition LTCG_BRACKETS : gmap FilingStatus brackets :=
  <[ SINGLE := [ (Fin 47025, 0.00); (Fin 518900, 0.15); (Inf, 0.20) ] ]>
  (<[ MARRIED_JOINT :=
       [ (Fin 94050, 0.00); (Fin 583750, 0.15); (Inf, 0.20) ] ]> ∅).

Definition NIIT_THRESHOLD : gmap FilingStatus Q :=
  <[ SINGLE := 200000 ]>
  (<[ MARRIED_JOINT := 250000 ]>
  (<[ MARRIED_SEPARATE := 125000 ]>
  (<[ HEAD_HOUSEHOLD := 200000 ]> ∅))).

Definition SE_TAX_RATE : Q := 0.153.
Definition SS_WAGE_BASE : Q := 168600.
Definition MEDICARE_ADDITIONAL_RATE : Q := 0.009.

Definition STATE_TAX_RATES : gmap string Q :=
  list_to_map
    [ ("CA", 0.133); ("NY", 0.109); ("TX", 0.00); ("FL", 0.00);
      ("WA", 0.00); ("NV", 0.00); ("WY", 0.00); ("SD", 0.00);
      ("AK", 0.00); ("TN", 0.00); ("NH", 0.00); ("NJ", 0.1075);
      ("MA", 0.09); ("IL", 0.0495); ("PA", 0.0307); ("AZ", 0.025);
      ("CO", 0.044); ("GA", 0.0549); ("NC", 0.0525); ("VA", 0.0575);
      ("OH", 0.0399); ("MI", 0.0425); ("MN", 0.0985); ("OR", 0.099);
      ("HI", 0.11) ]%string.

Definition SALT_CAP : Q := 10000.

(** [D[k]] for a key the literal [D] holds. *)
Definition FEDERAL_SINGLE : brackets := default [] (FEDERAL_BRACKETS !! SINGLE).
Definition LTCG_SINGLE : brackets := default [] (LTCG_BRACKETS !! SINGLE).

(** ** Input and output records *)

Module TaxInput.
Record t : Type := mk {
  (* income *)
  wages : Q;
  self_employment : Q;
  interest : Q;
  dividends_qualified : Q;
  dividends_ordinary : Q;
  short_term_gains : Q;
  long_term_gains : Q;
  rental_income : Q;
  k1_income : Q;
  other_income : Q;
  (* deductions *)
  mortgage_interest : Q;
  property_tax : Q;
  state_tax_paid : Q;
  charitable : Q;
  medical : Q;
  (* retirement contributions *)
  traditional_401k : Q;
  traditional_ira : Q;
  hsa : Q;
  (* credits *)
  children_under_17 : Z;
  children_17_plus : Z;
  education_expenses : Q;
  (* filing info *)
  filing_status : FilingStatus;
  state : string;
  age_65_plus : bool;
  spouse_age_65_plus : bool
}.

(** The defaults of the dataclass. *)
Definition default : t :=
  {| wages := 0; self_employment := 0; interest := 0;
     dividends_qualified := 0; dividends_ordinary := 0;
     short_term_gains := 0; long_term_gains := 0; rental_income := 0;
     k1_income := 0; other_income := 0;
     mortgage_interest := 0; property_tax := 0; state_tax_paid := 0;
     charitable := 0; medical := 0;
     traditional_401k := 0; traditional_ira := 0; hsa := 0;
     children_under_17 := 0; children_17_plus := 0;
     education_expenses := 0;
     filing_status := SINGLE; state := "CA";
     age_65_plus := false; spouse_age_65_plus := false |}.
End TaxInput.

Module TaxResult.
Record t : Type := mk {
  gross_income : Q;
  adjustments : Q;
  agi : Q;
  deductions : Q;
  deduction_type : string;
  taxable_income : Q;
  federal_tax_ordinary : Q;
  federal_tax_ltcg : Q;
  federal_tax_total : Q;
  effective_rate : Q;
  marginal_rate : Q;
  se_tax : Q;
  se_deduction : Q;
  state_tax : Q;
  state : string;
  child_tax_credit : Q;
  education_credits : Q;
  total_credits : Q;
  total_tax : Q;
  tax_after_credits : Q;
  quarterly_estimate : Q;
  breakdown : list (string * Q)
}.
End TaxResult.

(** ** The calculators *)

(** The loop of [calculate_federal_tax]; [tax], [prev_bracket] and
    [marginal_rate] are its variables.  [taxable_income <= prev_bracket]
    holds when [prev_bracket] is infinite. *)
Fixpoint federal_loop (taxable_income : Q) (bs : brackets)
    (tax : Q) (prev_bracket : bound) (marginal_rate : Q) : Q * Q :=
  match bs with
  | [] => (tax, marginal_rate)
  | (bracket_max, rate) :: bs' =>
      match prev_bracket with
      | Inf => (tax, marginal_rate)
      | Fin prev =>
          if Qleb taxable_income prev then (tax, marginal_rate)
          else
            let taxable_in_bracket :=
              min_bound taxable_income bracket_max - prev in
            federal_loop taxable_income bs'
              (tax + taxable_in_bracket * rate) bracket_max rate
      end
  end.

Definition calculate_federal_tax (taxable_income : Q)
    (filing_status : FilingStatus) : Q * Q :=
  let bs := default FEDERAL_SINGLE (FEDERAL_BRACKETS !! filing_status) in
  federal_loop taxable_income bs 0.0 (Fin 0) 0.10.

(** The loop of [calculate_ltcg_tax]; [tax] and [prev_bracket] are its
    variables. *)
Fixpoint ltcg_loop (ordinary_income total_ltcg : Q) (bs : brackets)
    (tax : Q) (prev_bracket : bound) : Q :=
  match bs with
  | [] => tax
  | (bracket_max, rate) :: bs' =>
      if ge_bound ordinary_income bracket_max then
        ltcg_loop ordinary_income total_ltcg bs' tax bracket_max
      else
        let bracket_start := max_bound ordinary_income prev_bracket in
        let bracket_end :=
          min_bound (ordinary_income + total_ltcg) bracket_max in
        let tax :=
          match bracket_start with
          | Fin start =>
              if Qltb start bracket_end
              then tax + (bracket_end - start) * rate
              else tax
          | Inf => tax
          end in
        if Qleb (ordinary_income + total_ltcg) bracket_end then tax
        else ltcg_loop ordinary_income total_ltcg bs' tax bracket_max
  end.

Definition calculate_ltcg_tax (ltcg qualified_dividends taxable_income : Q)
    (filing_status : FilingStatus) : Q :=
  let total_ltcg := ltcg + qualified_dividends in
  if Qleb total_ltcg 0 then 0.0
  else
    let bs := default LTCG_SINGLE (LTCG_BRACKETS !! filing_status) in
    let ordinary_income := taxable_income - total_ltcg in
    ltcg_loop ordinary_income total_ltcg bs 0.0 (Fin 0).

Definition calculate_se_tax (self_employment_income : Q) : Q * Q :=
  if Qleb self_employment_income 0 then (0.0, 0.0)
  else
    let net_se := self_employment_income * 0.9235 in
    let ss_taxable := py_min net_se SS_WAGE_BASE in
    let ss_tax := ss_taxable * 0.124 in
    let medicare_tax := net_se * 0.029 in
    let medicare_tax :=
      if Qltb 200000 net_se
      then medicare_tax + (net_se - 200000) * MEDICARE_ADDITIONAL_RATE
      else medicare_tax in
    let total_se_tax := ss_tax + medicare_tax in
    let se_deduction := total_se_tax / 2 in
    (total_se_tax, se_deduction).

Definition calculate_niit (magi investment_income : Q)
    (filing_status : FilingStatus) : Q :=
  let threshold := default 200000 (NIIT_THRESHOLD !! filing_status) in
  if Qleb magi threshold then 0.0
  else
    let excess := magi - threshold in
    let taxable := py_min excess investment_income in
    taxable * 0.038.

(** [x // 1000] on a float is the floor of the quotient. *)
Definition calculate_child_tax_credit (children_under_17 children_17_plus : Z)
    (agi : Q) (filing_status : FilingStatus) : Q :=
  let credit := (children_under_17 * 2000)%Z in
  let credit := (credit + children_17_plus * 500)%Z in
  let threshold : Q :=
    if decide (filing_status = MARRIED_JOINT) then 400000 else 200000 in
  if Qltb threshold agi then
    let reduction := inject_Z (Qfloor ((agi - threshold) / 1000)) * 50 in
    py_max 0 (inject_Z credit - reduction)
  else inject_Z credit.

(** [str.upper] *)
Definition upper_ascii (c : ascii) : ascii :=
  let n := nat_of_ascii c in
  if (97 <=? n)%nat && (n <=? 122)%nat then ascii_of_nat (n - 32) else c.

Fixpoint upper (s : string) : string :=
  match s with
  | EmptyString => EmptyString
  | String c s' => String (upper_ascii c) (upper s')
  end.

Definition calculate_state_tax (taxable_income : Q) (state : string) : Q :=
  let rate := default 0.05 (STATE_TAX_RATES !! upper state) in
  taxable_income * rate.

(** ** The orchestrator *)

(** The local variables of [calculate_taxes], before the rounding of the
    result record. *)
Module Locals.
Record t : Type := mk {
  gross_income : Q;
  se_tax : Q;
  se_deduction : Q;
  adjustments : Q;
  agi : Q;
  standard : Q;
  salt : Q;
  medical_deductible : Q;
  itemized : Q;
  deductions : Q;
  deduction_type : string;
  preferential_income : Q;
  taxable_income : Q;
  ordinary_taxable : Q;
  federal_ordinary : Q;
  marginal_rate : Q;
  ltcg_ordinary_income : Q;
  federal_ltcg : Q;
  federal_total : Q;
  investment_income : Q;
  niit : Q;
  state_tax : Q;
  child_credit : Q;
  education_credit : Q;
  total_credits : Q;
  total_tax : Q;
  tax_after_credits : Q;
  effective_rate : Q;
  quarterly_estimate : Q
}.
End Locals.

(** The body of [calculate_taxes] up to the [return].  The field
    [ltcg_ordinary_income] is the variable [ordinary_income] of the call
    of [calculate_ltcg_tax] made here. *)
Definition calculate_taxes_locals (tax_input : TaxInput.t) : Locals.t :=
  let i := tax_input in
  (* Step 1 *)
  let gross_income :=
    TaxInput.wages i + TaxInput.self_employment i + TaxInput.interest i +
    TaxInput.dividends_qualified i + TaxInput.dividends_ordinary i +
    TaxInput.short_term_gains i + TaxInput.long_term_gains i +
    TaxInput.rental_income i + TaxInput.k1_income i +
    TaxInput.other_income i in
  (* Step 2 *)
  let '(se_tax, se_deduction) :=
    calculate_se_tax (TaxInput.self_employment i) in
  let adjustments :=
    se_deduction + TaxInput.traditional_ira i + TaxInput.hsa i in
  (* Step 3 *)
  let agi := gross_income - adjustments in
  (* Step 4 *)
  let standard := STANDARD_DEDUCTION (TaxInput.filing_status i) in
  let standard :=
    if TaxInput.age_65_plus i
    then standard +
         default 1550 (ADDITIONAL_DEDUCTION !! TaxInput.filing_status i)
    else standard in
  let standard :=
    if TaxInput.spouse_age_65_plus i &&
       bool_decide (TaxInput.filing_status i = MARRIED_JOINT)
    then standard +
         default 1550 (ADDITIONAL_DEDUCTION !! TaxInput.filing_status i)
    else standard in
  let salt :=
    py_min (TaxInput.property_tax i + TaxInput.state_tax_paid i) SALT_CAP in
  let medical_deductible :=
    py_max 0 (TaxInput.medical i - agi * 0.075) in
  let itemized :=
    TaxInput.mortgage_interest i + salt + TaxInput.charitable i +
    medical_deductible in
  let '(deductions, deduction_type) :=
    if Qltb standard itemized then (itemized, "itemized"%string)
    else (standard, "standard"%string) in
  (* Step 5 *)
  let preferential_income :=
    TaxInput.long_term_gains i + TaxInput.dividends_qualified i in
  let taxable_income := py_max 0 (agi - deductions) in
  let ordinary_taxable := py_max 0 (taxable_income - preferential_income) in
  (* Step 6 *)
  let '(federal_ordinary, marginal_rate) :=
    calculate_federal_tax ordinary_taxable (TaxInput.filing_status i) in
  let federal_ltcg :=
    calculate_ltcg_tax (TaxInput.long_term_gains i)
      (TaxInput.dividends_qualified i) taxable_income
      (TaxInput.filing_status i) in
  let federal_total := federal_ordinary + federal_ltcg in
  (* Step 7 *)
  let investment_income :=
    TaxInput.interest i + TaxInput.dividends_qualified i +
    TaxInput.dividends_ordinary i + TaxInput.short_term_gains i +
    TaxInput.long_term_gains i + py_max 0 (TaxInput.rental_income i) in
  let niit :=
    calculate_niit agi investment_income (TaxInput.filing_status i) in
  (* Step 8 *)
  let state_tax := calculate_state_tax taxable_income (TaxInput.state i) in
  (* Step 9 *)
  let child_credit :=
    calculate_child_tax_credit (TaxInput.children_under_17 i)
      (TaxInput.children_17_plus i) agi (TaxInput.filing_status i) in
  let education_credit :=
    py_min (TaxInput.education_expenses i * 0.2) 2000 in
  let total_credits := child_credit + education_credit in
  (* Step 10 *)
  let total_tax := federal_total + se_tax + niit + state_tax in
  let tax_after_credits := py_max 0 (total_tax - total_credits) in
  let effective_rate :=
    if Qltb 0 gross_income then tax_after_credits / gross_income * 100
    else 0 in
  let quarterly_estimate := tax_after_credits / 4 in
  {| Locals.gross_income := gross_income;
     Locals.se_tax := se_tax;
     Locals.se_deduction := se_deduction;
     Locals.adjustments := adjustments;
     Locals.agi := agi;
     Locals.standard := standard;
     Locals.salt := salt;
     Locals.medical_deductible := medical_deductible;
     Locals.itemized := itemized;
     Locals.deductions := deductions;
     Locals.deduction_type := deduction_type;
     Locals.preferential_income := preferential_income;
     Locals.taxable_income := taxable_income;
     Locals.ordinary_taxable := ordinary_taxable;
     Locals.federal_ordinary := federal_ordinary;
     Locals.marginal_rate := marginal_rate;
     Locals.ltcg_ordinary_income :=
       taxable_income -
       (TaxInput.long_term_gains i + TaxInput.dividends_qualified i);
     Locals.federal_ltcg := federal_ltcg;
     Locals.federal_total := federal_total;
     Locals.investment_income := investment_income;
     Locals.niit := niit;
     Locals.state_tax := state_tax;
     Locals.child_credit := child_credit;
     Locals.education_credit := education_credit;
     Locals.total_credits := total_credits;
     Locals.total_tax := total_tax;
     Locals.tax_after_credits := tax_after_credits;
     Locals.effective_rate := effective_rate;
     Locals.quarterly_estimate := quarterly_estimate |}.

(** The [return TaxResult(...)] of [calculate_taxes]. *)
Definition calculate_taxes (tax_input : TaxInput.t) : TaxResult.t :=
  let l := calculate_taxes_locals tax_input in
  {| TaxResult.gross_income := py_round (Locals.gross_income l) 2;
     TaxResult.adjustments := py_round (Locals.adjustments l) 2;
     TaxResult.agi := py_round (Locals.agi l) 2;
     TaxResult.deductions := py_round (Locals.deductions l) 2;
     TaxResult.deduction_type := Locals.deduction_type l;
     TaxResult.taxable_income := py_round (Locals.taxable_income l) 2;
     TaxResult.federal_tax_ordinary := py_round (Locals.federal_ordinary l) 2;
     TaxResult.federal_tax_ltcg := py_round (Locals.federal_ltcg l) 2;
     TaxResult.federal_tax_total := py_round (Locals.federal_total l) 2;
     TaxResult.effective_rate := py_round (Locals.effective_rate l) 2;
     TaxResult.marginal_rate := py_round (Locals.marginal_rate l * 100) 1;
     TaxResult.se_tax := py_round (Locals.se_tax l) 2;
     TaxResult.se_deduction := py_round (Locals.se_deduction l) 2;
     TaxResult.state_tax := py_round (Locals.state_tax l) 2;
     TaxResult.state := TaxInput.state tax_input;
     TaxResult.child_tax_credit := py_round (Locals.child_credit l) 2;
     TaxResult.education_credits := py_round (Locals.education_credit l) 2;
     TaxResult.total_credits := py_round (Locals.total_credits l) 2;
     TaxResult.total_tax := py_round (Locals.total_tax l) 2;
     TaxResult.tax_after_credits := py_round (Locals.tax_after_credits l) 2;
     TaxResult.quarterly_estimate :=
       py_round (Locals.quarterly_estimate l) 2;
     TaxResult.breakdown :=
       [ ("federal_ordinary", py_round (Locals.federal_ordinary l) 2);
         ("federal_ltcg", py_round (Locals.federal_ltcg l) 2);
         ("se_tax", py_round (Locals.se_tax l) 2);
         ("niit", py_round (Locals.niit l) 2);
         ("state_tax", py_round (Locals.state_tax l) 2);
         ("credits_applied", py_round (Locals.total_credits l) 2) ]%string
  |}.

(** * Self-employment tax on binary64 floats *)

Module Binary64.

(** The constants of the code, as the floats the interpreter reads them
    as; [SS_WAGE_BASE] and [200000] are integers a float holds exactly. *)
Definition SS_WAGE_BASE : float := 168600%float.
Definition MEDICARE_ADDITIONAL_RATE : float := 0.009%float.

(** [calculate_se_tax], operation by operation; [min(a, b)] keeps [a]
    unless [b < a]. *)
Definition calculate_se_tax (self_employment_income : float)
    : float * float :=
  if (self_employment_income <=? 0)%float then (0%float, 0%float)
  else
    let net_se := (self_employment_income * 0.9235)%float in
    let ss_taxable :=
      if (SS_WAGE_BASE <? net_se)%float then SS_WAGE_BASE else net_se in
    let ss_tax := (ss_taxable * 0.124)%float in
    let medicare_tax := (net_se * 0.029)%float in
    let medicare_tax :=
      if (200000 <? net_se)%float
      then (medicare_tax + (net_se - 200000) * MEDICARE_ADDITIONAL_RATE)%float
      else medicare_tax in
    let total_se_tax := (ss_tax + medicare_tax)%float in
    let se_deduction := (total_se_tax / 2)%float in
    (total_se_tax, se_deduction).

(** The exact value of a finite float, 0 for the others. *)
Definition to_Q (x : float) : Q :=
  match Prim2SF x with
  | S754_finite s m e =>
      let v := inject_Z (Z.pos m) * 2 ^ e in
      if s then - v else v
  | _ => 0
  end.

(** [round(x, ndigits)] of a finite float is the float that prints as the
    decimal with [ndigits] places nearest to the exact value of [x], a tie
    going to the even one; [round] here is that decimal. *)
Definition round (x : float) (ndigits : nat) : Q :=
  py_round (to_Q x) ndigits.

(** The fields [se_tax] and [se_deduction] of the result of
    [calculate_taxes], which depend on the input through
    [tax_input.self_employment] alone. *)
Definition result_se_fields (self_employment : float) : Q * Q :=
  let '(se_tax, se_deduction) := calculate_se_tax self_employment in
  (round se_tax 2, round se_deduction 2).
End Binary64.

(** * Vocabulary of the specification *)

(** [TaxInput(wages=w, self_employment=s, long_term_gains=g)]: the other
    fields keep the defaults of the dataclass. *)
Definition income_only (w s g : Q) : TaxInput.t :=
  {| TaxInput.wages := w; TaxInput.self_employment := s;
     TaxInput.interest := 0;
     TaxInput.dividends_qualified := 0; TaxInput.dividends_ordinary := 0;
     TaxInput.short_term_gains := 0; TaxInput.long_term_gains := g;
     TaxInput.rental_income := 0;
     TaxInput.k1_income := 0; TaxInput.other_income := 0;
     TaxInput.mortgage_interest := 0; TaxInput.property_tax := 0;
     TaxInput.state_tax_paid := 0;
     TaxInput.charitable := 0; TaxInput.medical := 0;
     TaxInput.traditional_401k := 0; TaxInput.traditional_ira := 0;
     TaxInput.hsa := 0;
     TaxInput.children_under_17 := 0; TaxInput.children_17_plus := 0;
     TaxInput.education_expenses := 0;
     TaxInput.filing_status := SINGLE; TaxInput.state := "CA";
     TaxInput.age_65_plus := false; TaxInput.spouse_age_65_plus := false |}.

(** The phase-out threshold, in the words of the specification. *)
Definition phase_out_threshold (filing_status : FilingStatus) : Q :=
  match filing_status with
  | MARRIED_JOINT => 400000
  | _ => 200000
  end.

(** The reduction of the credit, in the words of the specification: 50 for
    each full 1,000 of AGI above the threshold, nothing at or below it. *)
Definition phase_out_reduction (agi : Q) (filing_status : FilingStatus) : Q :=
  let threshold := phase_out_threshold filing_status in
  if Qlt_le_dec threshold agi
  then inject_Z (Qfloor ((agi - threshold) / 1000)) * 50
  else 0.

(** [prev < b], for the bound [prev] a loop has reached. *)
Definition lt_bound (prev b : bound) : bool :=
  match prev, b with
  | Fin p, Fin q => Qltb p q
  | Fin _, Inf => true
  | Inf, _ => false
  end.

(** The bounds of a schedule go up strictly from [prev] and its rates are
    not negative. *)
Fixpoint ascending (prev : bound) (bs : brackets) : bool :=
  match bs with
  | [] => true
  | (bracket_max, rate) :: bs' =>
      Qleb 0 rate && lt_bound prev bracket_max && ascending bracket_max bs'
  end.

(** The part of the amount [a] above the bound [prev]. *)
Definition beyond (prev : bound) (a : Q) : Q :=
  match prev with
  | Fin p => Qmax 0 (a - p)
  | Inf => 0
  end.

(** A schedule that goes up strictly from [prev], reaches an infinite
    bound, and has every rate between [lo] and [hi].  Nothing is asked of
    what follows an infinite bound: no loop reads it. *)
Fixpoint complete (lo hi : Q) (prev : bound) (bs : brackets) : bool :=
  match prev, bs with
  | Inf, _ => true
  | Fin _, [] => false
  | Fin _, (bracket_max, rate) :: bs' =>
      Qleb lo rate && Qleb rate hi && lt_bound prev bracket_max
      && complete lo hi bracket_max bs'
  end.

(** The rates of a schedule do not go down, starting from [m]. *)
Fixpoint rates_ascending (m : Q) (bs : brackets) : bool :=
  match bs with
  | [] => true
  | (_, rate) :: bs' => Qleb m rate && rates_ascending rate bs'
  end.

(** The statutory rates, as fractions and as the percentages of the result
    record. *)
Definition FEDERAL_RATES : list Q := [0.10; 0.12; 0.22; 0.24; 0.32; 0.35; 0.37].
Definition FEDERAL_PERCENTAGES : list Q := [10; 12; 22; 24; 32; 35; 37].

(** The top of the 0% bracket of the preferential schedule a filing status
    is taxed with. *)
Definition LTCG_ZERO_RATE_LIMIT (filing_status : FilingStatus) : Q :=
  match filing_status with
  | MARRIED_JOINT => 94050
  | _ => 47025
  end.

(** The states whose rate in [STATE_TAX_RATES] is zero. *)
Definition NO_INCOME_TAX_STATES : list string :=
  ["TX"; "FL"; "WA"; "NV"; "WY"; "SD"; "AK"; "TN"; "NH"]%string.

(** [x] is [y] up to half a cent. *)
Definition within_half_cent (x y : Q) : Prop :=
  y - 0.005 <= x /\ x <= y + 0.005.

(** The tax the bracket walk of [calculate_federal_tax] gives on the
    amount [a] when it runs over the preferential schedule of a filing
    status: the preferential tax of an income of [a] that is all gains. *)
Definition ltcg_cumulative (filing_status : FilingStatus) (a : Q) : Q :=
  fst (federal_loop a
         (default LTCG_SINGLE (LTCG_BRACKETS !! filing_status))
         0.0 (Fin 0) 0.10).

(** [TaxInput(wages=w, education_expenses=e)]: the other fields keep the
    defaults of the dataclass. *)
Definition wages_and_education (w e : Q) : TaxInput.t :=
  {| TaxInput.wages := w; TaxInput.self_employment := 0;
     TaxInput.interest := 0;
     TaxInput.dividends_qualified := 0; TaxInput.dividends_ordinary := 0;
     TaxInput.short_term_gains := 0; TaxInput.long_term_gains := 0;
     TaxInput.rental_income := 0;
     TaxInput.k1_income := 0; TaxInput.other_income := 0;
     TaxInput.mortgage_interest := 0; TaxInput.property_tax := 0;
     TaxInput.state_tax_paid := 0;
     TaxInput.charitable := 0; TaxInput.medical := 0;
     TaxInput.traditional_401k := 0; TaxInput.traditional_ira := 0;
     TaxInput.hsa := 0;
     TaxInput.children_under_17 := 0; TaxInput.children_17_plus := 0;
     TaxInput.education_expenses := e;
     TaxInput.filing_status := SINGLE; TaxInput.state := "CA";
     TaxInput.age_65_plus := false; TaxInput.spouse_age_65_plus := false |}.

(** * Proofs *)

(** ** Comparisons *)

Lemma Qleb_true (x y : Q) : Qleb x y = true <-> x <= y.
Proof. apply Qle_bool_iff. Qed.

Lemma Qleb_false (x y : Q) : Qleb x y = false <-> y < x.
Proof.
  unfold Qleb. rewrite <- not_true_iff_false, Qle_bool_iff.
  split; [apply Qnot_le_lt | apply Qlt_not_le].
Qed.

Lemma Qltb_true (x y : Q) : Qltb x y = true <-> x < y.
Proof. unfold Qltb. rewrite negb_true_iff. apply Qleb_false. Qed.

Lemma Qltb_false (x y : Q) : Qltb x y = false <-> y <= x.
Proof. unfold Qltb. rewrite negb_false_iff. apply Qleb_true. Qed.

(** Case analysis on a comparison, leaving the order fact in the
    context. *)
Ltac case_Qleb x y :=
  let H := fresh "Hle" in
  destruct (Qleb x y) eqn:H;
  [apply Qleb_true in H | apply Qleb_false in H].

Ltac case_Qltb x y :=
  let H := fresh "Hlt" in
  destruct (Qltb x y) eqn:H;
  [apply Qltb_true in H | apply Qltb_false in H].

Ltac case_cmp :=
  match goal with
  | |- context [Qleb ?x ?y] => case_Qleb x y
  | |- context [Qltb ?x ?y] => case_Qltb x y
  | H : context [Qleb ?x ?y] |- _ => case_Qleb x y
  | H : context [Qltb ?x ?y] |- _ => case_Qltb x y
  end.

Lemma py_min_Qmin (a b : Q) : py_min a b == Qmin a b.
Proof.
  unfold py_min. case_cmp.
  - rewrite Q.min_r; [reflexivity | lra].
  - rewrite Q.min_l; [reflexivity | lra].
Qed.

Lemma py_max_Qmax (a b : Q) : py_max a b == Qmax a b.
Proof.
  unfold py_max. case_cmp.
  - rewrite Q.max_r; [reflexivity | lra].
  - rewrite Q.max_l; [reflexivity | lra].
Qed.

Lemma py_max_ge_l (a b : Q) : a <= py_max a b.
Proof. unfold py_max. case_cmp; lra. Qed.

Lemma py_max_ge_r (a b : Q) : b <= py_max a b.
Proof. unfold py_max. case_cmp; lra. Qed.

Lemma py_min_le_l (a b : Q) : py_min a b <= a.
Proof. unfold py_min. case_cmp; lra. Qed.

Lemma py_min_le_r (a b : Q) : py_min a b <= b.
Proof. unfold py_min. case_cmp; lra. Qed.

#[global] Instance py_min_proper : Proper (Qeq ==> Qeq ==> Qeq) py_min.
Proof.
  intros a a' Ha b b' Hb. rewrite !py_min_Qmin. now rewrite Ha, Hb.
Qed.

#[global] Instance py_max_proper : Proper (Qeq ==> Qeq ==> Qeq) py_max.
Proof.
  intros a a' Ha b b' Hb. rewrite !py_max_Qmax. now rewrite Ha, Hb.
Qed.

(** ** Scenarios of the bracket evaluators *)

(** C5. With the 2024 single brackets, the ordinary tax on 50,000 is
    1,160 + 4,266 + 627 = 6,053 and the marginal rate is 22%; the result
    record reports the rate as 22.0. *)
Theorem scenario_A_federal_tax_50000 :
  fst (calculate_federal_tax 50000 SINGLE) == 6053 /\
  fst (calculate_federal_tax 50000 SINGLE) == 1160 + 4266 + 627 /\
  snd (calculate_federal_tax 50000 SINGLE) == 0.22 /\
  py_round (snd (calculate_federal_tax 50000 SINGLE) * 100) 1 == 22.
Proof. repeat split; vm_compute; reflexivity. Qed.

(** C4. For a single filer with taxable income 60,000, all of it long-term
    gains, the preferential tax is (60,000 - 47,025) x 0.15 = 1,946.25;
    and whenever long-term gains plus qualified dividends are at most 0
    the preferential tax is 0. *)
Theorem scenario_B_ltcg_and_empty_stack :
  calculate_ltcg_tax 60000 0 60000 SINGLE == 1946.25 /\
  forall (ltcg qualified_dividends taxable_income : Q)
         (filing_status : FilingStatus),
    ltcg + qualified_dividends <= 0 ->
    calculate_ltcg_tax ltcg qualified_dividends taxable_income filing_status
    == 0.
Proof.
  split; [vm_compute; reflexivity |].
  intros ltcg qd ti fs H. unfold calculate_ltcg_tax.
  apply Qleb_true in H. rewrite H. reflexivity.
Qed.

Lemma scenario_B_ltcg_and_empty_stack_witness :
  (-5) + 3 <= 0 /\ calculate_ltcg_tax (-5) 3 1000 MARRIED_JOINT == 0.
Proof.
  assert (H : (-5) + 3 <= 0) by (vm_compute; discriminate).
  split; [exact H |].
  exact (proj2 scenario_B_ltcg_and_empty_stack (-5) 3 1000 MARRIED_JOINT H).
Defined.

(** ** The local variables of the orchestrator *)

Ltac open_locals :=
  unfold calculate_taxes_locals;
  repeat match goal with
         | |- context [let '(_, _) := ?e in _] => destruct e eqn:?
         end;
  cbn [Locals.gross_income Locals.se_tax Locals.se_deduction
       Locals.adjustments Locals.agi Locals.standard Locals.salt
       Locals.medical_deductible Locals.itemized Locals.deductions
       Locals.deduction_type Locals.preferential_income
       Locals.taxable_income Locals.ordinary_taxable
       Locals.federal_ordinary Locals.marginal_rate
       Locals.ltcg_ordinary_income Locals.federal_ltcg
       Locals.federal_total Locals.investment_income Locals.niit
       Locals.state_tax Locals.child_credit Locals.education_credit
       Locals.total_credits Locals.total_tax Locals.tax_after_credits
       Locals.effective_rate Locals.quarterly_estimate].

Lemma locals_se (i : TaxInput.t) :
  Locals.se_tax (calculate_taxes_locals i)
  = fst (calculate_se_tax (TaxInput.self_employment i)) /\
  Locals.se_deduction (calculate_taxes_locals i)
  = snd (calculate_se_tax (TaxInput.self_employment i)).
Proof. open_locals. split; reflexivity. Qed.

(** ** Self-employment tax *)

Lemma se_tax_nonpositive (x : Q) :
  x <= 0 -> calculate_se_tax x = (0.0, 0.0).
Proof.
  intros H. unfold calculate_se_tax. apply Qleb_true in H.
  rewrite H. reflexivity.
Qed.

(** C2, as stated, fails.  On the floats of the code the tax for an
    income of 100,000 is 14129.549999999999 and its half is
    7064.7749999999996, below the tie 7,064.775: the [se_deduction] field
    of the result is 7,064.77, not 7,064.78. *)
Lemma se_deduction_field_rounds_down :
  Binary64.calculate_se_tax 100000
  = (14129.549999999999%float, 7064.7749999999996%float) /\
  Binary64.to_Q (snd (Binary64.calculate_se_tax 100000)) < 7064.775 /\
  snd (Binary64.result_se_fields 100000) == 7064.77 /\
  ~ snd (Binary64.result_se_fields 100000) == 7064.78.
Proof.
  split; [vm_compute; reflexivity |].
  split; [vm_compute; reflexivity |].
  split; [vm_compute; reflexivity |].
  vm_compute. discriminate.
Qed.

(** C2, amended.  For self-employment income 100,000 the tax is
    11,451.40 + 2,678.15 = 14,129.55 and the deduction is half of it, in
    exact arithmetic; on the floats of the code the [se_tax] field of the
    result is 14,129.55, the deduction is the tax divided by 2, its value
    lies below 7,064.775 and the [se_deduction] field is 7,064.77.  For an
    income of at most 0 both the tax and the deduction are 0, in exact
    arithmetic, on floats and in the result. *)
Theorem scenario_C_se_tax_binary64 :
  (fst (calculate_se_tax 100000) == 14129.55 /\
   fst (calculate_se_tax 100000) == 92350 * 0.124 + 92350 * 0.029 /\
   snd (calculate_se_tax 100000) == fst (calculate_se_tax 100000) / 2) /\
  (fst (Binary64.result_se_fields 100000) == 14129.55 /\
   snd (Binary64.calculate_se_tax 100000)
   = (fst (Binary64.calculate_se_tax 100000) / 2)%float /\
   Binary64.to_Q (snd (Binary64.calculate_se_tax 100000)) < 7064.775 /\
   snd (Binary64.result_se_fields 100000) == 7064.77) /\
  (forall x : Q,
      x <= 0 ->
      fst (calculate_se_tax x) == 0 /\ snd (calculate_se_tax x) == 0) /\
  (forall x : float,
      (x <=? 0)%float = true ->
      Binary64.calculate_se_tax x = (0%float, 0%float) /\
      fst (Binary64.result_se_fields x) == 0 /\
      snd (Binary64.result_se_fields x) == 0) /\
  (forall i : TaxInput.t,
      TaxInput.self_employment i <= 0 ->
      TaxResult.se_tax (calculate_taxes i) == 0 /\
      TaxResult.se_deduction (calculate_taxes i) == 0).
Proof.
  split; [repeat split; vm_compute; reflexivity |].
  split; [repeat split; vm_compute; reflexivity |].
  split; [| split].
  - intros x Hx. rewrite (se_tax_nonpositive x Hx).
    split; vm_compute; reflexivity.
  - intros x Hx.
    assert (E : Binary64.calculate_se_tax x = (0%float, 0%float)).
    { unfold Binary64.calculate_se_tax. rewrite Hx. reflexivity. }
    unfold Binary64.result_se_fields. rewrite E.
    split; [reflexivity | split; vm_compute; reflexivity].
  - intros i Hi. unfold calculate_taxes.
    cbn [TaxResult.se_tax TaxResult.se_deduction].
    destruct (locals_se i) as [-> ->].
    rewrite (se_tax_nonpositive _ Hi).
    split; vm_compute; reflexivity.
Qed.

Lemma scenario_C_se_tax_binary64_witness :
  (-250 <= 0 /\
   fst (calculate_se_tax (-250)) == 0 /\ snd (calculate_se_tax (-250)) == 0) /\
  (Binary64.calculate_se_tax (-250)%float = (0%float, 0%float) /\
   fst (Binary64.result_se_fields (-250)%float) == 0 /\
   snd (Binary64.result_se_fields (-250)%float) == 0) /\
  (TaxResult.se_tax (calculate_taxes (income_only 500 (-250) 0)) == 0 /\
   TaxResult.se_deduction (calculate_taxes (income_only 500 (-250) 0)) == 0).
Proof.
  assert (H : -250 <= 0) by (vm_compute; discriminate).
  assert (Hf : ((-250) <=? 0)%float = true) by (vm_compute; reflexivity).
  destruct scenario_C_se_tax_binary64 as (_ & _ & H1 & H2 & H3).
  split; [exact (conj H (H1 (-250) H)) |].
  split; [exact (H2 (-250)%float Hf) |].
  exact (H3 (income_only 500 (-250) 0) H).
Defined.

(** ** Child and dependent credit *)

(** C7. The credit is 2000 per child under 17 plus 500 per other
    dependent; above the threshold (400,000 for married_joint, else
    200,000) it is reduced by floor((AGI - threshold) / 1000) x 50 and
    floored at 0.  For counts that are not negative this is
    max(0, credit - reduction) throughout.  Two children under 17 at an AGI
    of 250,000 for a single filer give 1,500. *)
Theorem child_tax_credit_phase_out
    (children_under_17 children_17_plus : Z) (agi : Q)
    (filing_status : FilingStatus) :
  let credit :=
    inject_Z children_under_17 * 2000 + inject_Z children_17_plus * 500 in
  let threshold := phase_out_threshold filing_status in
  (agi <= threshold ->
   calculate_child_tax_credit children_under_17 children_17_plus agi
     filing_status == credit) /\
  (threshold < agi ->
   calculate_child_tax_credit children_under_17 children_17_plus agi
     filing_status
   == Qmax 0 (credit - inject_Z (Qfloor ((agi - threshold) / 1000)) * 50)) /\
  ((0 <= children_under_17)%Z -> (0 <= children_17_plus)%Z ->
   calculate_child_tax_credit children_under_17 children_17_plus agi
     filing_status
   == Qmax 0 (credit - phase_out_reduction agi filing_status)) /\
  calculate_child_tax_credit 2 0 250000 SINGLE == 1500.
Proof.
  intros credit threshold.
  assert (Hthr : (if decide (filing_status = MARRIED_JOINT)
                  then 400000 else 200000) = threshold).
  { destruct filing_status; reflexivity. }
  assert (Hcredit : inject_Z (children_under_17 * 2000
                              + children_17_plus * 500) == credit).
  { subst credit. rewrite inject_Z_plus, !inject_Z_mult. reflexivity. }
  assert (Hcode :
    calculate_child_tax_credit children_under_17 children_17_plus agi
      filing_status
    == if Qlt_le_dec threshold agi
       then Qmax 0 (credit
                    - inject_Z (Qfloor ((agi - threshold) / 1000)) * 50)
       else credit).
  { unfold calculate_child_tax_credit. rewrite Hthr.
    destruct (Qlt_le_dec threshold agi) as [H | H].
    - apply Qltb_true in H. rewrite H.
      rewrite py_max_Qmax, Hcredit. reflexivity.
    - apply Qltb_false in H. rewrite H. exact Hcredit. }
  split; [| split; [| split]].
  - intros H. rewrite Hcode.
    destruct (Qlt_le_dec threshold agi); [lra | reflexivity].
  - intros H. rewrite Hcode.
    destruct (Qlt_le_dec threshold agi); [reflexivity | lra].
  - intros H17 H17p. rewrite Hcode. unfold phase_out_reduction.
    fold threshold.
    destruct (Qlt_le_dec threshold agi); [reflexivity |].
    assert (0 <= credit).
    { subst credit.
      rewrite Zle_Qle in H17, H17p.
      change (inject_Z 0) with 0 in H17, H17p. lra. }
    rewrite Q.max_r; lra.
  - vm_compute. reflexivity.
Qed.

Lemma child_tax_credit_phase_out_witness :
  calculate_child_tax_credit 3 1 150000 MARRIED_JOINT
  == inject_Z 3 * 2000 + inject_Z 1 * 500 /\
  calculate_child_tax_credit 1 0 450500 MARRIED_JOINT
  == Qmax 0 (inject_Z 1 * 2000 + inject_Z 0 * 500
             - inject_Z (Qfloor ((450500 - 400000) / 1000)) * 50) /\
  calculate_child_tax_credit 1 2 203999 HEAD_HOUSEHOLD
  == Qmax 0 (inject_Z 1 * 2000 + inject_Z 2 * 500
             - phase_out_reduction 203999 HEAD_HOUSEHOLD).
Proof.
  split; [| split].
  - apply (proj1 (child_tax_credit_phase_out 3 1 150000 MARRIED_JOINT)).
    vm_compute. discriminate.
  - apply (proj1 (proj2
             (child_tax_credit_phase_out 1 0 450500 MARRIED_JOINT))).
    vm_compute. reflexivity.
  - apply (proj1 (proj2 (proj2
             (child_tax_credit_phase_out 1 2 203999 HEAD_HOUSEHOLD))));
      vm_compute; discriminate.
Defined.

(** ** Fallbacks of the table lookups *)

Lemma FEDERAL_BRACKETS_single :
  FEDERAL_BRACKETS !! SINGLE = Some FEDERAL_SINGLE.
Proof. vm_compute. reflexivity. Qed.

Lemma LTCG_BRACKETS_single : LTCG_BRACKETS !! SINGLE = Some LTCG_SINGLE.
Proof. vm_compute. reflexivity. Qed.

(** C9. A filing status that is not a key of a bracket table is taxed as
    single: qualifying_widow in the federal table; married_separate,
    head_household and qualifying_widow in the preferential table.  A
    state whose code is not a key of the rate table pays 5% of the taxable
    income; the code is looked up in upper case. *)
Theorem unknown_key_fallbacks :
  (forall (filing_status : FilingStatus) (taxable_income : Q),
      FEDERAL_BRACKETS !! filing_status = None ->
      calculate_federal_tax taxable_income filing_status
      = calculate_federal_tax taxable_income SINGLE) /\
  (forall (filing_status : FilingStatus)
          (ltcg qualified_dividends taxable_income : Q),
      LTCG_BRACKETS !! filing_status = None ->
      calculate_ltcg_tax ltcg qualified_dividends taxable_income
        filing_status
      = calculate_ltcg_tax ltcg qualified_dividends taxable_income SINGLE) /\
  FEDERAL_BRACKETS !! WIDOW = None /\
  LTCG_BRACKETS !! WIDOW = None /\
  (forall (state : string) (taxable_income : Q),
      STATE_TAX_RATES !! upper state = None ->
      calculate_state_tax taxable_income state == taxable_income * 0.05).
Proof.
  split; [| split; [| split; [| split]]].
  - intros fs ti H. unfold calculate_federal_tax.
    rewrite H, FEDERAL_BRACKETS_single. reflexivity.
  - intros fs l q ti H. unfold calculate_ltcg_tax.
    rewrite H, LTCG_BRACKETS_single. reflexivity.
  - vm_compute. reflexivity.
  - vm_compute. reflexivity.
  - intros s ti H. unfold calculate_state_tax. rewrite H. reflexivity.
Qed.

Lemma unknown_key_fallbacks_witness :
  calculate_federal_tax 50000 WIDOW = calculate_federal_tax 50000 SINGLE /\
  calculate_ltcg_tax 60000 0 60000 HEAD_HOUSEHOLD
  = calculate_ltcg_tax 60000 0 60000 SINGLE /\
  calculate_state_tax 1000 "ZZ" == 1000 * 0.05.
Proof.
  destruct unknown_key_fallbacks as (H1 & H2 & _ & _ & H3).
  split; [exact (H1 WIDOW 50000 eq_refl) |].
  split; [exact (H2 HEAD_HOUSEHOLD 60000 0 60000 eq_refl) |].
  exact (H3 "ZZ"%string 1000 eq_refl).
Defined.

(** ** Upper case *)

Lemma upper_ascii_idempotent (c : ascii) :
  upper_ascii (upper_ascii c) = upper_ascii c.
Proof.
  destruct c as [[] [] [] [] [] [] [] []]; vm_compute; reflexivity.
Qed.

Lemma upper_idempotent (s : string) : upper (upper s) = upper s.
Proof.
  induction s as [| c s IH]; [reflexivity |].
  cbn [upper]. rewrite upper_ascii_idempotent, IH. reflexivity.
Qed.

(** C10. The state tax of a code is the state tax of the code in upper
    case: "ca" pays the rate of "CA", not the 5% of an unknown state. *)
Theorem state_lookup_case_insensitive :
  (forall (taxable_income : Q) (state : string),
      calculate_state_tax taxable_income state
      = calculate_state_tax taxable_income (upper state)) /\
  (forall taxable_income : Q,
      calculate_state_tax taxable_income "ca" == taxable_income * 0.133 /\
      calculate_state_tax taxable_income "ca"
      = calculate_state_tax taxable_income "CA") /\
  ~ calculate_state_tax 1000 "ca" == 1000 * 0.05.
Proof.
  split; [| split].
  - intros ti s. unfold calculate_state_tax.
    rewrite upper_idempotent. reflexivity.
  - intros ti. split; reflexivity.
  - vm_compute. discriminate.
Qed.

(** ** Rounding respects equality of rationals *)

#[global] Instance Qleb_proper : Proper (Qeq ==> Qeq ==> eq) Qleb.
Proof.
  intros a a' Ha b b' Hb.
  destruct (Qleb a' b') eqn:E.
  - apply Qleb_true. apply Qleb_true in E. lra.
  - apply Qleb_false. apply Qleb_false in E. lra.
Qed.

#[global] Instance Qltb_proper : Proper (Qeq ==> Qeq ==> eq) Qltb.
Proof.
  intros a a' Ha b b' Hb. unfold Qltb.
  f_equal. apply Qleb_proper; assumption.
Qed.

#[global] Instance round_half_even_proper :
  Proper (Qeq ==> eq) round_half_even.
Proof.
  intros y y' Hy. unfold round_half_even.
  rewrite (Qfloor_comp _ _ Hy).
  rewrite (Qltb_proper (y - inject_Z (Qfloor y')) (y' - inject_Z (Qfloor y'))
             ltac:(lra) (1 # 2) (1 # 2) ltac:(reflexivity)).
  rewrite (Qltb_proper (1 # 2) (1 # 2) ltac:(reflexivity)
             (y - inject_Z (Qfloor y')) (y' - inject_Z (Qfloor y'))
             ltac:(lra)).
  reflexivity.
Qed.

#[global] Instance py_round_proper : Proper (Qeq ==> eq ==> Qeq) py_round.
Proof.
  intros x x' Hx n n' <-. unfold py_round.
  assert (E : x * inject_Z (10 ^ Z.of_nat n)
              == x' * inject_Z (10 ^ Z.of_nat n)) by (rewrite Hx; reflexivity).
  rewrite (round_half_even_proper _ _ E). reflexivity.
Qed.

(** ** The steps of the orchestrator, one equation for each *)

Section Steps.
Variable i : TaxInput.t.
Let l := calculate_taxes_locals i.

Lemma locals_gross_income :
  Locals.gross_income l
  = TaxInput.wages i + TaxInput.self_employment i + TaxInput.interest i +
    TaxInput.dividends_qualified i + TaxInput.dividends_ordinary i +
    TaxInput.short_term_gains i + TaxInput.long_term_gains i +
    TaxInput.rental_income i + TaxInput.k1_income i +
    TaxInput.other_income i.
Proof. subst l. open_locals. reflexivity. Qed.

Lemma locals_agi :
  Locals.agi l = Locals.gross_income l - Locals.adjustments l.
Proof. subst l. open_locals. reflexivity. Qed.

Lemma locals_standard :
  Locals.standard l
  = let standard := STANDARD_DEDUCTION (TaxInput.filing_status i) in
    let standard :=
      if TaxInput.age_65_plus i
      then standard +
           default 1550 (ADDITIONAL_DEDUCTION !! TaxInput.filing_status i)
      else standard in
    if TaxInput.spouse_age_65_plus i &&
       bool_decide (TaxInput.filing_status i = MARRIED_JOINT)
    then standard +
         default 1550 (ADDITIONAL_DEDUCTION !! TaxInput.filing_status i)
    else standard.
Proof. subst l. open_locals. reflexivity. Qed.


Lemma locals_deductions :
  (Locals.deductions l, Locals.deduction_type l)
  = if Qltb (Locals.standard l) (Locals.itemized l)
    then (Locals.itemized l, "itemized"%string)
    else (Locals.standard l, "standard"%string).
Proof. subst l. open_locals. symmetry. assumption. Qed.

Lemma locals_taxable_income :
  Locals.taxable_income l
  = py_max 0 (Locals.agi l - Locals.deductions l).
Proof. subst l. open_locals. reflexivity. Qed.

Lemma locals_preferential_income :
  Locals.preferential_income l
  = TaxInput.long_term_gains i + TaxInput.dividends_qualified i.
Proof. subst l. open_locals. reflexivity. Qed.

Lemma locals_ordinary_taxable :
  Locals.ordinary_taxable l
  = py_max 0 (Locals.taxable_income l - Locals.preferential_income l).
Proof. subst l. open_locals. reflexivity. Qed.

Lemma locals_ltcg_ordinary_income :
  Locals.ltcg_ordinary_income l
  = Locals.taxable_income l - Locals.preferential_income l.
Proof. subst l. open_locals. reflexivity. Qed.

Lemma locals_federal_ltcg :
  Locals.federal_ltcg l
  = calculate_ltcg_tax (TaxInput.long_term_gains i)
      (TaxInput.dividends_qualified i) (Locals.taxable_income l)
      (TaxInput.filing_status i).
Proof. subst l. open_locals. reflexivity. Qed.

Lemma locals_tax_after_credits :
  Locals.tax_after_credits l
  = py_max 0 (Locals.total_tax l - Locals.total_credits l).
Proof. subst l. open_locals. reflexivity. Qed.

Lemma locals_effective_rate :
  Locals.effective_rate l
  = if Qltb 0 (Locals.gross_income l)
    then Locals.tax_after_credits l / Locals.gross_income l * 100
    else 0.
Proof. subst l. open_locals. reflexivity. Qed.
End Steps.

(** ** Choice of the deduction *)


(** ** Well-formed schedules *)

Lemma ascending_cons (prev bracket_max : bound) (rate : Q) (bs : brackets) :
  ascending prev ((bracket_max, rate) :: bs) = true ->
  0 <= rate /\ lt_bound prev bracket_max = true /\
  ascending bracket_max bs = true.
Proof.
  cbn [ascending]. rewrite !andb_true_iff, Qleb_true. tauto.
Qed.

Lemma FEDERAL_BRACKETS_ascending (fs : FilingStatus) :
  ascending (Fin 0) (default FEDERAL_SINGLE (FEDERAL_BRACKETS !! fs)) = true.
Proof. destruct fs; vm_compute; reflexivity. Qed.

Lemma LTCG_BRACKETS_ascending (fs : FilingStatus) :
  ascending (Fin 0) (default LTCG_SINGLE (LTCG_BRACKETS !! fs)) = true.
Proof. destruct fs; vm_compute; reflexivity. Qed.

(** ** The ordinary bracket walk is monotone *)

Lemma min_bound_mono (a1 a2 : Q) (b : bound) :
  a1 <= a2 -> min_bound a1 b <= min_bound a2 b.
Proof.
  intros H. destruct b as [q |]; cbn [min_bound]; [| exact H].
  unfold py_min. repeat case_cmp; lra.
Qed.

Lemma min_bound_above (a p : Q) (b : bound) :
  p < a -> lt_bound (Fin p) b = true -> p <= min_bound a b.
Proof.
  intros Ha Hb. destruct b as [q |]; cbn [min_bound lt_bound] in *.
  - apply Qltb_true in Hb. unfold py_min. case_cmp; lra.
  - lra.
Qed.

(** The walk never lowers the tax it starts from. *)
Lemma federal_loop_fst_ge (bs : brackets) :
  forall (a tax : Q) (prev : bound) (m : Q),
    ascending prev bs = true ->
    tax <= fst (federal_loop a bs tax prev m).
Proof.
  induction bs as [| [bracket_max rate] bs IH]; intros a tax prev m Hwf.
  - cbn. lra.
  - apply ascending_cons in Hwf as (Hr & Hlt & Hwf).
    cbn [federal_loop]. destruct prev as [p |]; [| cbn; lra].
    case_cmp; [cbn; lra |].
    eapply Qle_trans; [| apply IH; exact Hwf].
    pose proof (min_bound_above a p bracket_max Hle Hlt) as Hmin.
    assert (0 <= (min_bound a bracket_max - p) * rate).
    { apply Qmult_le_0_compat; lra. }
    lra.
Qed.

Lemma federal_loop_fst_mono (bs : brackets) :
  forall (a1 a2 tax1 tax2 : Q) (prev : bound) (m1 m2 : Q),
    ascending prev bs = true ->
    a1 <= a2 -> tax1 <= tax2 ->
    fst (federal_loop a1 bs tax1 prev m1)
    <= fst (federal_loop a2 bs tax2 prev m2).
Proof.
  induction bs as [| [bracket_max rate] bs IH];
    intros a1 a2 tax1 tax2 prev m1 m2 Hwf Ha Htax.
  - exact Htax.
  - pose proof Hwf as Hwf0.
    apply ascending_cons in Hwf as (Hr & Hlt & Hwf).
    cbn [federal_loop]. destruct prev as [p |]; [| exact Htax].
    case_Qleb a1 p; case_Qleb a2 p.
    + exact Htax.
    + eapply Qle_trans; [exact Htax |].
      eapply Qle_trans; [| apply federal_loop_fst_ge; exact Hwf].
      pose proof (min_bound_above a2 p bracket_max Hle0 Hlt) as Hmin.
      assert (0 <= (min_bound a2 bracket_max - p) * rate).
      { apply Qmult_le_0_compat; lra. }
      lra.
    + lra.
    + apply IH; [exact Hwf | exact Ha |].
      pose proof (min_bound_mono a1 a2 bracket_max Ha) as Hmin.
      assert ((min_bound a1 bracket_max - p) * rate
              <= (min_bound a2 bracket_max - p) * rate).
      { apply Qmult_le_compat_r; lra. }
      lra.
Qed.

(** C6. For every filing status the ordinary tax is non-decreasing in the
    amount, and the tax on 0 is 0. *)
Theorem federal_tax_monotone (filing_status : FilingStatus) (a1 a2 : Q) :
  0 <= a1 -> a1 <= a2 ->
  fst (calculate_federal_tax a1 filing_status)
  <= fst (calculate_federal_tax a2 filing_status) /\
  fst (calculate_federal_tax 0 filing_status) == 0.
Proof.
  intros H0 Ha. split.
  - unfold calculate_federal_tax.
    apply federal_loop_fst_mono;
      [apply FEDERAL_BRACKETS_ascending | exact Ha | lra].
  - destruct filing_status; vm_compute; reflexivity.
Qed.

Lemma federal_tax_monotone_witness :
  fst (calculate_federal_tax 47150 HEAD_HOUSEHOLD)
  <= fst (calculate_federal_tax 250000 HEAD_HOUSEHOLD) /\
  fst (calculate_federal_tax 0 HEAD_HOUSEHOLD) == 0.
Proof.
  apply (federal_tax_monotone HEAD_HOUSEHOLD 47150 250000);
    vm_compute; discriminate.
Defined.

(** ** The preferential walk *)

(** The walk depends on its amounts up to equality of rationals. *)
Lemma ltcg_loop_proper (bs : brackets) :
  forall (f1 f2 t1 t2 tax1 tax2 : Q) (prev : bound),
    f1 == f2 -> t1 == t2 -> tax1 == tax2 ->
    ltcg_loop f1 t1 bs tax1 prev == ltcg_loop f2 t2 bs tax2 prev.
Proof.
  induction bs as [| [bracket_max rate] bs IH];
    intros f1 f2 t1 t2 tax1 tax2 prev Hf Ht Htax.
  - exact Htax.
  - cbn [ltcg_loop].
    assert (He : f1 + t1 == f2 + t2) by (rewrite Hf, Ht; reflexivity).
    assert (Hend : min_bound (f1 + t1) bracket_max
                   == min_bound (f2 + t2) bracket_max).
    { destruct bracket_max; cbn [min_bound];
        [apply py_min_proper; [exact He | reflexivity] | exact He]. }
    assert (Hge : ge_bound f1 bracket_max = ge_bound f2 bracket_max).
    { destruct bracket_max; cbn [ge_bound];
        [apply Qleb_proper; [reflexivity | exact Hf] | reflexivity]. }
    rewrite Hge. destruct (ge_bound f2 bracket_max); [apply IH; assumption |].
    rewrite (Qleb_proper _ _ He _ _ Hend).
    destruct prev as [p |]; cbn [max_bound].
    + assert (Hstart : py_max f1 p == py_max f2 p).
      { apply py_max_proper; [exact Hf | reflexivity]. }
      rewrite (Qltb_proper _ _ Hstart _ _ Hend).
      destruct (Qltb (py_max f2 p) (min_bound (f2 + t2) bracket_max)).
      * assert (Htax' :
          tax1 + (min_bound (f1 + t1) bracket_max - py_max f1 p) * rate
          == tax2 + (min_bound (f2 + t2) bracket_max - py_max f2 p) * rate).
        { rewrite Htax, Hend, Hstart. reflexivity. }
        destruct (Qleb _ _); [exact Htax' | apply IH; assumption].
      * destruct (Qleb _ _); [exact Htax | apply IH; assumption].
    + destruct (Qleb _ _); [exact Htax | apply IH; assumption].
Qed.

(** A floor at or below the bound already reached is as good as that
    bound: the first slice starts at [max(floor, prev_bracket)]. *)
Lemma ltcg_loop_clip (bs : brackets) :
  forall (p f1 t1 f2 t2 tax1 tax2 : Q),
    ascending (Fin p) bs = true ->
    f1 <= p -> f2 <= p -> f1 + t1 == f2 + t2 -> tax1 == tax2 ->
    ltcg_loop f1 t1 bs tax1 (Fin p) == ltcg_loop f2 t2 bs tax2 (Fin p).
Proof.
  induction bs as [| [bracket_max rate] bs IH];
    intros p f1 t1 f2 t2 tax1 tax2 Hwf Hf1 Hf2 He Htax.
  - exact Htax.
  - apply ascending_cons in Hwf as (Hr & Hlt & Hwf).
    cbn [ltcg_loop].
    assert (Hend : min_bound (f1 + t1) bracket_max
                   == min_bound (f2 + t2) bracket_max).
    { destruct bracket_max; cbn [min_bound];
        [apply py_min_proper; [exact He | reflexivity] | exact He]. }
    assert (Hstart : py_max f1 p == py_max f2 p).
    { rewrite !py_max_Qmax, !Q.max_r by assumption. reflexivity. }
    rewrite (Qleb_proper _ _ He _ _ Hend).
    cbn [max_bound]. rewrite (Qltb_proper _ _ Hstart _ _ Hend).
    assert (Htax' :
      tax1 + (min_bound (f1 + t1) bracket_max - py_max f1 p) * rate
      == tax2 + (min_bound (f2 + t2) bracket_max - py_max f2 p) * rate).
    { rewrite Htax, Hend, Hstart. reflexivity. }
    destruct bracket_max as [b |]; cbn [ge_bound lt_bound] in *.
    + apply Qltb_true in Hlt.
      assert (Hge1 : Qleb b f1 = false) by (apply Qleb_false; lra).
      assert (Hge2 : Qleb b f2 = false) by (apply Qleb_false; lra).
      rewrite Hge1, Hge2. clear Hge1 Hge2.
      destruct (Qltb (py_max f2 p) (min_bound (f2 + t2) (Fin b)));
        destruct (Qleb (f2 + t2) (min_bound (f2 + t2) (Fin b)));
        try assumption; apply IH; try assumption; lra.
    + cbn [min_bound].
      assert (Hbreak : Qleb (f2 + t2) (f2 + t2) = true)
        by (apply Qleb_true; lra).
      rewrite Hbreak. destruct (Qltb (py_max f2 p) (f2 + t2)); assumption.
Qed.

(** The preferential tax is that of the part of the preferential income
    that fits in the taxable income, stacked on the rest. *)
Lemma ltcg_clip (ltcg qd T : Q) (fs : FilingStatus) :
  0 <= T ->
  calculate_ltcg_tax ltcg qd T fs
  == calculate_ltcg_tax (Qmin (ltcg + qd) T) 0 T fs.
Proof.
  intros HT. unfold calculate_ltcg_tax.
  pose proof (LTCG_BRACKETS_ascending fs) as Hwf.
  generalize (Q.min_spec (ltcg + qd) T).
  generalize (Qmin (ltcg + qd) T). intros m Hm.
  case_Qleb (ltcg + qd) 0; case_Qleb (m + 0) 0.
  - reflexivity.
  - destruct Hm as [[? ?] | [? ?]]; lra.
  - (* the taxable income is 0 and the floor is negative *)
    assert (HT0 : T == 0) by (destruct Hm as [[? ?] | [? ?]]; lra).
    destruct (default LTCG_SINGLE (LTCG_BRACKETS !! fs))
      as [| [bracket_max rate] bs]; [reflexivity |].
    apply ascending_cons in Hwf as (Hr & Hlt & Hwf).
    cbn [ltcg_loop max_bound].
    assert (Hend : min_bound (T - (ltcg + qd) + (ltcg + qd)) bracket_max
                   == 0).
    { destruct bracket_max as [b |]; cbn [min_bound lt_bound] in *;
        [| lra].
      apply Qltb_true in Hlt. unfold py_min. case_cmp; lra. }
    assert (Hge : ge_bound (T - (ltcg + qd)) bracket_max = false).
    { destruct bracket_max as [b |]; cbn [ge_bound lt_bound] in *;
        [| reflexivity].
      apply Qltb_true in Hlt. apply Qleb_false. lra. }
    rewrite Hge.
    assert (Hno : Qltb (py_max (T - (ltcg + qd)) 0)
                       (min_bound (T - (ltcg + qd) + (ltcg + qd)) bracket_max)
                  = false).
    { apply Qltb_false. rewrite Hend. apply py_max_ge_r. }
    rewrite Hno.
    assert (Hbreak : Qleb (T - (ltcg + qd) + (ltcg + qd))
                          (min_bound (T - (ltcg + qd) + (ltcg + qd))
                             bracket_max) = true).
    { apply Qleb_true. rewrite Hend. lra. }
    rewrite Hbreak. reflexivity.
  - destruct Hm as [[Hlt Hmin] | [Hge Hmin]].
    + apply ltcg_loop_proper; [lra | lra | reflexivity].
    + apply ltcg_loop_clip; [exact Hwf | lra | lra | lra | reflexivity].
Qed.

(** C1, as stated, fails.  With 60,000 of long-term gains and no other
    income the taxable income is 60,000 - 14,600 = 45,400: the
    preferential income handed to the walk is larger, and the ordinary
    floor of the walk is -14,600. *)
Lemma preferential_income_exceeds_taxable :
  let l := calculate_taxes_locals (income_only 0 0 60000) in
  Locals.taxable_income l == 45400 /\
  Locals.preferential_income l == 60000 /\
  Locals.ltcg_ordinary_income l == -14600 /\
  Locals.federal_ltcg l
  = ltcg_loop (Locals.ltcg_ordinary_income l) (Locals.preferential_income l)
      LTCG_SINGLE 0.0 (Fin 0) /\
  ~ Locals.preferential_income l <= Locals.taxable_income l /\
  ~ 0 <= Locals.ltcg_ordinary_income l.
Proof.
  cbv zeta. repeat split; try (vm_compute; reflexivity);
    vm_compute; intros H; apply H; reflexivity.
Qed.

(** C1, amended.  The ordinary floor of the walk is not negative exactly
    when the preferential income is at most the taxable income.  In every
    case the preferential tax is that of [used], the part of the
    preferential income that fits in the taxable income, stacked on the
    floor [taxable_income - used]: the amount taxed at preferential rates
    never exceeds the taxable income and its floor is never negative. *)
Theorem preferential_stack_within_taxable (i : TaxInput.t) :
  let l := calculate_taxes_locals i in
  let used :=
    Qmin (Locals.preferential_income l) (Locals.taxable_income l) in
  (0 <= Locals.ltcg_ordinary_income l
   <-> Locals.preferential_income l <= Locals.taxable_income l) /\
  used <= Locals.taxable_income l /\
  0 <= Locals.taxable_income l - used /\
  Locals.federal_ltcg l
  == calculate_ltcg_tax used 0 (Locals.taxable_income l)
       (TaxInput.filing_status i).
Proof.
  intros l used.
  assert (HT : 0 <= Locals.taxable_income l).
  { subst l. rewrite locals_taxable_income. apply py_max_ge_l. }
  assert (Hused : used <= Locals.taxable_income l) by apply Q.le_min_r.
  split; [| split; [exact Hused | split; [lra |]]].
  - subst l. rewrite locals_ltcg_ordinary_income. split; intros H; lra.
  - subst used l. rewrite locals_federal_ltcg, locals_preferential_income.
    apply ltcg_clip. exact HT.
Qed.

(** ** Effective rate *)




(** * Further properties of the calculators *)

(** ** Ordinary tax: amounts at or below zero, slopes, marginal rate *)

Lemma federal_loop_exhausted (a tax p m : Q) (bs : brackets) :
  a <= p -> federal_loop a bs tax (Fin p) m = (tax, m).
Proof.
  intros H. destruct bs as [| [bracket_max rate] bs]; [reflexivity |].
  cbn [federal_loop]. apply Qleb_true in H. rewrite H. reflexivity.
Qed.

Lemma federal_loop_past_infinity (a tax m : Q) (bs : brackets) :
  federal_loop a bs tax Inf m = (tax, m).
Proof. destruct bs as [| [bracket_max rate] bs]; reflexivity. Qed.

Lemma federal_tax_zero_amount (fs : FilingStatus) :
  calculate_federal_tax 0 fs = (0.0, 0.10).
Proof.
  unfold calculate_federal_tax. apply federal_loop_exhausted. lra.
Qed.

(** X1. An amount that is zero or negative is not taxed, and the marginal rate
    reported for it is the 10% the loop starts from. *)
Theorem federal_tax_nonpositive_amount
    (taxable_income : Q) (filing_status : FilingStatus) :
  taxable_income <= 0 ->
  calculate_federal_tax taxable_income filing_status = (0.0, 0.10).
Proof.
  intros H. unfold calculate_federal_tax.
  apply federal_loop_exhausted. exact H.
Qed.

Lemma federal_tax_nonpositive_amount_witness :
  calculate_federal_tax (-1200) MARRIED_SEPARATE = (0.0, 0.10).
Proof.
  apply (federal_tax_nonpositive_amount (-1200) MARRIED_SEPARATE).
  vm_compute. discriminate.
Defined.

Lemma complete_cons (lo hi p : Q) (bracket_max : bound) (rate : Q)
    (bs : brackets) :
  complete lo hi (Fin p) ((bracket_max, rate) :: bs) = true ->
  lo <= rate /\ rate <= hi /\ lt_bound (Fin p) bracket_max = true /\
  complete lo hi bracket_max bs = true.
Proof.
  cbn [complete]. rewrite !andb_true_iff, !Qleb_true. tauto.
Qed.

Lemma FEDERAL_BRACKETS_complete (fs : FilingStatus) :
  complete 0.10 0.37 (Fin 0)
    (default FEDERAL_SINGLE (FEDERAL_BRACKETS !! fs)) = true.
Proof. destruct fs; vm_compute; reflexivity. Qed.

(** What a slice and the rest of the amount add up to. *)
Lemma slice_plus_beyond (a p : Q) (b : bound) :
  p < a -> lt_bound (Fin p) b = true ->
  p <= min_bound a b /\ min_bound a b - p + beyond b a == a - p.
Proof.
  intros Ha Hb. destruct b as [q |]; cbn [min_bound beyond lt_bound] in *.
  - apply Qltb_true in Hb. unfold py_min.
    generalize (Q.max_spec 0 (a - q)). generalize (Qmax 0 (a - q)).
    intros mx Hmx. case_cmp; destruct Hmx as [[? ?] | [? ?]]; split; lra.
  - split; lra.
Qed.

Lemma beyond_above (a p : Q) : p < a -> beyond (Fin p) a == a - p.
Proof. intros H. cbn [beyond]. rewrite Q.max_r; lra. Qed.

Lemma beyond_below (a p : Q) : a <= p -> beyond (Fin p) a == 0.
Proof. intros H. cbn [beyond]. rewrite Q.max_l; lra. Qed.

Lemma beyond_mono (prev : bound) (a1 a2 : Q) :
  a1 <= a2 -> beyond prev a1 <= beyond prev a2.
Proof.
  intros H. destruct prev as [p |]; cbn [beyond]; [| lra].
  apply Q.max_le_compat_l. lra.
Qed.

(** One walk: the tax added is between [lo] and [hi] times the part of the
    amount above the bound the walk starts from. *)
Lemma federal_loop_total (lo hi : Q) (bs : brackets) :
  forall (a tax : Q) (prev : bound) (m : Q),
    complete lo hi prev bs = true ->
    lo * beyond prev a <= fst (federal_loop a bs tax prev m) - tax /\
    fst (federal_loop a bs tax prev m) - tax <= hi * beyond prev a.
Proof.
  induction bs as [| [bracket_max rate] bs IH]; intros a tax prev m Hc.
  - destruct prev as [p |]; [discriminate |]. cbn. split; lra.
  - destruct prev as [p |];
      [| rewrite federal_loop_past_infinity; cbn; split; lra].
    apply complete_cons in Hc as (Hlo & Hhi & Hlt & Hc).
    cbn [federal_loop]. case_cmp.
    + rewrite (beyond_below a p Hle). cbn. split; lra.
    + destruct (slice_plus_beyond a p bracket_max Hle Hlt) as [Hs Hsum].
      rewrite (beyond_above a p Hle).
      specialize (IH a (tax + (min_bound a bracket_max - p) * rate)
                    bracket_max rate Hc) as [IHlo IHhi].
      set (F := fst (federal_loop a bs _ bracket_max rate)) in *.
      clearbody F.
      assert (lo * (min_bound a bracket_max - p)
              <= rate * (min_bound a bracket_max - p))
        by (apply Qmult_le_compat_r; lra).
      assert (rate * (min_bound a bracket_max - p)
              <= hi * (min_bound a bracket_max - p))
        by (apply Qmult_le_compat_r; lra).
      assert (lo * (a - p)
              == lo * (min_bound a bracket_max - p)
                 + lo * beyond bracket_max a) by (rewrite <- Hsum; ring).
      assert (hi * (a - p)
              == hi * (min_bound a bracket_max - p)
                 + hi * beyond bracket_max a) by (rewrite <- Hsum; ring).
      split; lra.
Qed.

(** Two walks over one schedule: the difference of the taxes added is
    between [lo] and [hi] times the difference of the amounts above the
    starting bound. *)
Lemma federal_loop_slope (lo hi : Q) (bs : brackets) :
  forall (a1 a2 tax1 tax2 : Q) (prev : bound) (m1 m2 : Q),
    complete lo hi prev bs = true ->
    a1 <= a2 ->
    let F1 := fst (federal_loop a1 bs tax1 prev m1) - tax1 in
    let F2 := fst (federal_loop a2 bs tax2 prev m2) - tax2 in
    lo * (beyond prev a2 - beyond prev a1) <= F2 - F1 /\
    F2 - F1 <= hi * (beyond prev a2 - beyond prev a1).
Proof.
  induction bs as [| [bracket_max rate] bs IH];
    intros a1 a2 tax1 tax2 prev m1 m2 Hc Ha; cbv zeta.
  - destruct prev as [p |]; [discriminate |]. cbn. split; lra.
  - destruct prev as [p |];
      [| rewrite !federal_loop_past_infinity; cbn; split; lra].
    destruct (Qlt_le_dec p a1) as [H1 | H1].
    + (* both amounts reach this bracket *)
      assert (H2 : p < a2) by lra.
      apply complete_cons in Hc as (Hlo & Hhi & Hlt & Hc).
      cbn [federal_loop].
      rewrite (proj2 (Qleb_false a1 p) H1), (proj2 (Qleb_false a2 p) H2).
      destruct (slice_plus_beyond a1 p bracket_max H1 Hlt) as [Hs1 Hsum1].
      destruct (slice_plus_beyond a2 p bracket_max H2 Hlt) as [Hs2 Hsum2].
      rewrite (beyond_above a1 p H1), (beyond_above a2 p H2).
      pose proof (min_bound_mono a1 a2 bracket_max Ha) as Hmin.
      specialize (IH a1 a2 (tax1 + (min_bound a1 bracket_max - p) * rate)
                    (tax2 + (min_bound a2 bracket_max - p) * rate)
                    bracket_max rate rate Hc Ha).
      cbv zeta in IH. destruct IH as [IHlo IHhi].
      set (F1 := fst (federal_loop a1 bs _ bracket_max rate)) in *.
      set (F2 := fst (federal_loop a2 bs _ bracket_max rate)) in *.
      clearbody F1 F2.
      set (s1 := min_bound a1 bracket_max) in *.
      set (s2 := min_bound a2 bracket_max) in *.
      set (r1 := beyond bracket_max a1) in *.
      set (r2 := beyond bracket_max a2) in *.
      clearbody s1 s2 r1 r2.
      assert (lo * (s2 - s1) <= rate * (s2 - s1))
        by (apply Qmult_le_compat_r; lra).
      assert (rate * (s2 - s1) <= hi * (s2 - s1))
        by (apply Qmult_le_compat_r; lra).
      assert (E : a2 - p - (a1 - p) == (s2 - s1) + (r2 - r1)) by lra.
      rewrite E. split; lra.
    + (* the smaller amount stops here *)
      rewrite (federal_loop_exhausted a1 tax1 p m1 _ H1).
      rewrite (beyond_below a1 p H1).
      destruct (federal_loop_total lo hi _ a2 tax2 (Fin p) m2 Hc) as [T1 T2].
      cbn [fst]. split; lra.
Qed.

(** X2. Between two amounts that are not negative, each unit of income adds at
    least 10% and at most 37% of tax: the ordinary tax has no jump, and
    it lies between 10% and 37% of the amount. *)
Theorem federal_tax_slope (filing_status : FilingStatus) (a1 a2 : Q) :
  0 <= a1 -> a1 <= a2 ->
  let tax a := fst (calculate_federal_tax a filing_status) in
  0.10 * (a2 - a1) <= tax a2 - tax a1 /\
  tax a2 - tax a1 <= 0.37 * (a2 - a1) /\
  0.10 * a2 <= tax a2 /\ tax a2 <= 0.37 * a2.
Proof.
  intros H0 Ha tax. subst tax. cbv beta. unfold calculate_federal_tax.
  pose proof (FEDERAL_BRACKETS_complete filing_status) as Hc.
  set (bs := default FEDERAL_SINGLE (FEDERAL_BRACKETS !! filing_status)) in *.
  pose proof (federal_loop_slope 0.10 0.37 bs a1 a2 0.0 0.0 (Fin 0)
                0.10 0.10 Hc Ha) as Hs.
  pose proof (federal_loop_total 0.10 0.37 bs a2 0.0 (Fin 0) 0.10 Hc) as Ht.
  cbv zeta in Hs. cbn [beyond] in Hs, Ht.
  assert (E1 : Qmax 0 (a1 - 0) == a1) by (rewrite Q.max_r; lra).
  assert (E2 : Qmax 0 (a2 - 0) == a2) by (rewrite Q.max_r; lra).
  rewrite E1, E2 in Hs. rewrite E2 in Ht.
  assert (Z0 : 0.0 == 0) by reflexivity.
  destruct Hs as [Hs1 Hs2], Ht as [Ht1 Ht2].
  set (F1 := fst (federal_loop a1 bs 0.0 (Fin 0) 0.10)) in *.
  set (F2 := fst (federal_loop a2 bs 0.0 (Fin 0) 0.10)) in *.
  clearbody F1 F2. repeat split; lra.
Qed.

Lemma federal_tax_slope_witness :
  let tax a := fst (calculate_federal_tax a MARRIED_JOINT) in
  0.10 * (120000 - 90000) <= tax 120000 - tax 90000 /\
  tax 120000 - tax 90000 <= 0.37 * (120000 - 90000) /\
  0.10 * 120000 <= tax 120000 /\ tax 120000 <= 0.37 * 120000.
Proof.
  apply (federal_tax_slope MARRIED_JOINT 90000 120000);
    vm_compute; discriminate.
Defined.

(** *** Marginal rate *)

Lemma rates_ascending_cons (m : Q) (bracket_max : bound) (rate : Q)
    (bs : brackets) :
  rates_ascending m ((bracket_max, rate) :: bs) = true ->
  m <= rate /\ rates_ascending rate bs = true.
Proof. cbn [rates_ascending]. rewrite andb_true_iff, Qleb_true. tauto. Qed.

Lemma FEDERAL_BRACKETS_rates_ascending (fs : FilingStatus) :
  rates_ascending 0.10
    (default FEDERAL_SINGLE (FEDERAL_BRACKETS !! fs)) = true.
Proof. destruct fs; vm_compute; reflexivity. Qed.

Lemma federal_loop_snd_ge (bs : brackets) :
  forall (a tax : Q) (prev : bound) (m : Q),
    rates_ascending m bs = true ->
    m <= snd (federal_loop a bs tax prev m).
Proof.
  induction bs as [| [bracket_max rate] bs IH]; intros a tax prev m Hr.
  - cbn. lra.
  - apply rates_ascending_cons in Hr as [Hm Hr].
    cbn [federal_loop]. destruct prev as [p |]; [| cbn; lra].
    case_cmp; [cbn; lra |].
    eapply Qle_trans; [exact Hm | apply IH; exact Hr].
Qed.

Lemma federal_loop_snd_mono (bs : brackets) :
  forall (a1 a2 tax1 tax2 : Q) (prev : bound) (m1 m2 : Q),
    rates_ascending m2 bs = true ->
    a1 <= a2 -> m1 <= m2 ->
    snd (federal_loop a1 bs tax1 prev m1)
    <= snd (federal_loop a2 bs tax2 prev m2).
Proof.
  induction bs as [| [bracket_max rate] bs IH];
    intros a1 a2 tax1 tax2 prev m1 m2 Hr Ha Hm.
  - exact Hm.
  - apply rates_ascending_cons in Hr as [Hm2 Hr].
    cbn [federal_loop]. destruct prev as [p |]; [| exact Hm].
    case_Qleb a1 p; case_Qleb a2 p.
    + exact Hm.
    + cbn [snd]. eapply Qle_trans; [exact Hm |].
      eapply Qle_trans; [exact Hm2 | apply federal_loop_snd_ge; exact Hr].
    + lra.
    + apply IH; [exact Hr | exact Ha | lra].
Qed.

Lemma federal_loop_snd_In (bs : brackets) :
  forall (a tax : Q) (prev : bound) (m : Q),
    In (snd (federal_loop a bs tax prev m)) (m :: map snd bs).
Proof.
  induction bs as [| [bracket_max rate] bs IH]; intros a tax prev m.
  - left. reflexivity.
  - cbn [federal_loop]. destruct prev as [p |]; [| left; reflexivity].
    case_cmp; [left; reflexivity |].
    right. apply IH.
Qed.

Lemma FEDERAL_BRACKETS_rates (fs : FilingStatus) :
  map snd (default FEDERAL_SINGLE (FEDERAL_BRACKETS !! fs)) = FEDERAL_RATES.
Proof. destruct fs; vm_compute; reflexivity. Qed.

(** X3. The marginal rate is one of the seven statutory rates and does not go
    down when the amount goes up. *)
Theorem marginal_rate_statutory_and_monotone
    (filing_status : FilingStatus) (a1 a2 : Q) :
  a1 <= a2 ->
  In (snd (calculate_federal_tax a1 filing_status)) FEDERAL_RATES /\
  snd (calculate_federal_tax a1 filing_status)
  <= snd (calculate_federal_tax a2 filing_status).
Proof.
  intros Ha. unfold calculate_federal_tax. split.
  - pose proof (federal_loop_snd_In
                  (default FEDERAL_SINGLE (FEDERAL_BRACKETS !! filing_status))
                  a1 0.0 (Fin 0) 0.10) as H.
    rewrite FEDERAL_BRACKETS_rates in H.
    destruct H as [<- | H]; [left; reflexivity | exact H].
  - apply federal_loop_snd_mono;
      [apply FEDERAL_BRACKETS_rates_ascending | exact Ha | lra].
Qed.

Lemma marginal_rate_statutory_and_monotone_witness :
  In (snd (calculate_federal_tax 47150 SINGLE)) FEDERAL_RATES /\
  snd (calculate_federal_tax 47150 SINGLE)
  <= snd (calculate_federal_tax 47151 SINGLE).
Proof.
  apply (marginal_rate_statutory_and_monotone SINGLE 47150 47151).
  vm_compute. discriminate.
Defined.

(** ** Preferential tax: bounds and the 0% bracket *)

Lemma LTCG_BRACKETS_complete (fs : FilingStatus) :
  complete 0 0.20 (Fin 0) (default LTCG_SINGLE (LTCG_BRACKETS !! fs)) = true.
Proof. destruct fs; vm_compute; reflexivity. Qed.

(** The walk adds tax on the stretch from [max(floor, prev_bracket)] to the
    top of the stack, at rates between 0 and [hi]. *)
Lemma ltcg_loop_bounds (hi : Q) (bs : brackets) :
  forall (f t tax p : Q),
    complete 0 hi (Fin p) bs = true ->
    tax <= ltcg_loop f t bs tax (Fin p) /\
    ltcg_loop f t bs tax (Fin p)
    <= tax + hi * Qmax 0 (f + t - Qmax f p).
Proof.
  induction bs as [| [bracket_max rate] bs IH]; intros f t tax p Hc;
    [discriminate |].
  apply complete_cons in Hc as (Hlo & Hhi & Hlt & Hc).
  cbn [ltcg_loop max_bound].
  assert (Hs : py_max f p == Qmax f p) by apply py_max_Qmax.
  set (s := py_max f p) in *. set (e := f + t) in *.
  generalize dependent (Qmax f p). intros mfp Hs.
  rewrite <- Hs. clear Hs mfp.
  assert (Hsf : f <= s) by apply py_max_ge_l.
  assert (Hsp : p <= s) by apply py_max_ge_r.
  assert (Hs' : s == f \/ s == p)
    by (subst s; unfold py_max; case_cmp; [right | left]; reflexivity).
  generalize (Q.max_spec 0 (e - s)). generalize (Qmax 0 (e - s)).
  intros w Hw.
  destruct bracket_max as [b |]; cbn [ge_bound min_bound lt_bound] in *.
  - apply Qltb_true in Hlt.
    case_Qleb b f.
    + (* the floor is above this bracket *)
      destruct (IH f t tax b Hc) as [IH1 IH2]. fold e in IH2.
      assert (Hfb : Qmax f b == f) by (apply Q.max_l; lra).
      rewrite Hfb in IH2.
      assert (s == f) by lra.
      assert (Hws : w == Qmax 0 (e - f)).
      { destruct Hw as [[? ->] | [? ->]];
          [rewrite Q.max_r | rewrite Q.max_l]; lra. }
      rewrite Hws. split; lra.
    + assert (Hsb : s < b) by (destruct Hs'; lra).
      unfold py_min. case_Qltb b e.
      * (* the stack goes on above this bracket *)
        rewrite (proj2 (Qltb_true s b) Hsb).
        rewrite (proj2 (Qleb_false e b) Hlt0).
        destruct (IH f t (tax + (b - s) * rate) b Hc) as [IH1 IH2].
        fold e in IH2.
        assert (Hfb : Qmax f b == b) by (apply Q.max_r; lra).
        rewrite Hfb in IH2.
        assert (Hwe : w == e - s) by (destruct Hw as [[? ?] | [? ?]]; lra).
        set (L := ltcg_loop f t bs _ (Fin b)) in *. clearbody L.
        assert (Qmax 0 (e - b) == e - b) as Heb by (rewrite Q.max_r; lra).
        rewrite Heb in IH2.
        assert (0 <= rate * (b - s)) by (apply Qmult_le_0_compat; lra).
        assert (rate * (b - s) <= hi * (b - s))
          by (apply Qmult_le_compat_r; lra).
        rewrite Hwe. split; lra.
      * (* the stack ends in this bracket *)
        rewrite (proj2 (Qleb_true e e) ltac:(lra)).
        case_Qltb s e.
        -- assert (Hwe : w == e - s)
             by (destruct Hw as [[? ?] | [? ?]]; lra).
           assert (0 <= rate * (e - s)) by (apply Qmult_le_0_compat; lra).
           assert (rate * (e - s) <= hi * (e - s))
             by (apply Qmult_le_compat_r; lra).
           rewrite Hwe. split; lra.
        -- assert (Hwe : w == 0) by (destruct Hw as [[? ?] | [? ?]]; lra).
           rewrite Hwe. split; lra.
  - rewrite (proj2 (Qleb_true e e) ltac:(lra)).
    case_Qltb s e.
    + assert (Hwe : w == e - s) by (destruct Hw as [[? ?] | [? ?]]; lra).
      assert (0 <= rate * (e - s)) by (apply Qmult_le_0_compat; lra).
      assert (rate * (e - s) <= hi * (e - s))
        by (apply Qmult_le_compat_r; lra).
      rewrite Hwe. split; lra.
    + assert (Hwe : w == 0) by (destruct Hw as [[? ?] | [? ?]]; lra).
      rewrite Hwe. split; lra.
Qed.

Lemma ltcg_tax_range (ltcg qualified_dividends taxable_income : Q)
    (filing_status : FilingStatus) :
  0 <= calculate_ltcg_tax ltcg qualified_dividends taxable_income
         filing_status /\
  calculate_ltcg_tax ltcg qualified_dividends taxable_income filing_status
  <= 0.20 * Qmax 0 (Qmin (ltcg + qualified_dividends) taxable_income).
Proof.
  unfold calculate_ltcg_tax.
  set (P := ltcg + qualified_dividends). set (T := taxable_income).
  generalize (Q.min_spec P T). generalize (Qmin P T). intros mn Hmn.
  generalize (Q.max_spec 0 mn). generalize (Qmax 0 mn). intros mx Hmx.
  case_Qleb P 0.
  - assert (0.0 == 0) as -> by reflexivity.
    destruct Hmn as [[? ?] | [? ?]], Hmx as [[? ?] | [? ?]]; split; lra.
  - destruct (ltcg_loop_bounds 0.20 _ (T - P) P 0.0 0
                (LTCG_BRACKETS_complete filing_status)) as [H1 H2].
    set (L := ltcg_loop (T - P) P _ 0.0 (Fin 0)) in *. clearbody L.
    assert (Z0 : 0.0 == 0) by reflexivity.
    revert H2.
    generalize (Q.max_spec (T - P) 0). generalize (Qmax (T - P) 0).
    intros fl Hfl.
    generalize (Q.max_spec 0 (T - P + P - fl)).
    generalize (Qmax 0 (T - P + P - fl)). intros w Hw H2.
    assert (w == mx).
    { destruct Hmn as [[? ?] | [? ?]], Hmx as [[? ?] | [? ?]],
        Hfl as [[? ?] | [? ?]], Hw as [[? ?] | [? ?]]; lra. }
    split; lra.
Qed.

(** X4. The preferential tax is never negative and never more than 20% of the
    preferential income that fits in the taxable income: at most 20% of
    the gains and dividends, and at most 20% of a taxable income that is
    not negative. *)
Theorem ltcg_tax_bounds (ltcg qualified_dividends taxable_income : Q)
    (filing_status : FilingStatus) :
  let tax :=
    calculate_ltcg_tax ltcg qualified_dividends taxable_income
      filing_status in
  0 <= tax /\
  tax <= 0.20 * Qmax 0 (Qmin (ltcg + qualified_dividends) taxable_income) /\
  tax <= 0.20 * Qmax 0 (ltcg + qualified_dividends) /\
  (0 <= taxable_income -> tax <= 0.20 * taxable_income).
Proof.
  intros tax. subst tax.
  destruct (ltcg_tax_range ltcg qualified_dividends taxable_income
              filing_status) as [H0 H1].
  set (tax := calculate_ltcg_tax _ _ _ _) in *. clearbody tax.
  set (P := ltcg + qualified_dividends) in *.
  revert H1.
  generalize (Q.min_spec P taxable_income).
  generalize (Qmin P taxable_income). intros mn Hmn.
  generalize (Q.max_spec 0 mn). generalize (Qmax 0 mn). intros mx Hmx H1.
  generalize (Q.max_spec 0 P). generalize (Qmax 0 P). intros mp Hmp.
  split; [exact H0 | split; [exact H1 | split]].
  - destruct Hmn as [[? ?] | [? ?]], Hmx as [[? ?] | [? ?]],
      Hmp as [[? ?] | [? ?]]; lra.
  - intros HT.
    destruct Hmn as [[? ?] | [? ?]], Hmx as [[? ?] | [? ?]]; lra.
Qed.

Lemma ltcg_tax_bounds_witness :
  calculate_ltcg_tax 600000 0 80000 SINGLE <= 0.20 * 80000.
Proof.
  apply (proj2 (proj2 (proj2 (ltcg_tax_bounds 600000 0 80000 SINGLE)))).
  vm_compute. discriminate.
Defined.

Lemma LTCG_BRACKETS_zero_rate (fs : FilingStatus) :
  exists bs : brackets,
    default LTCG_SINGLE (LTCG_BRACKETS !! fs)
    = (Fin (LTCG_ZERO_RATE_LIMIT fs), 0.00) :: bs.
Proof. destruct fs; eexists; vm_compute; reflexivity. Qed.

(** X5. A taxable income that does not go past the 0% bracket (47,025, or
    94,050 for married_joint) carries no preferential tax, whatever the
    gains. *)
Theorem ltcg_tax_zero_bracket (ltcg qualified_dividends taxable_income : Q)
    (filing_status : FilingStatus) :
  taxable_income <= LTCG_ZERO_RATE_LIMIT filing_status ->
  calculate_ltcg_tax ltcg qualified_dividends taxable_income filing_status
  == 0.
Proof.
  intros HT. unfold calculate_ltcg_tax.
  case_Qleb (ltcg + qualified_dividends) 0; [reflexivity |].
  destruct (LTCG_BRACKETS_zero_rate filing_status) as [bs ->].
  set (P := ltcg + qualified_dividends) in *.
  set (b := LTCG_ZERO_RATE_LIMIT filing_status) in *.
  cbn [ltcg_loop ge_bound max_bound min_bound].
  rewrite (proj2 (Qleb_false b (taxable_income - P)) ltac:(lra)).
  assert (Hend : py_min (taxable_income - P + P) b == taxable_income - P + P).
  { unfold py_min. case_cmp; lra. }
  assert (Hbreak : Qleb (taxable_income - P + P)
                         (py_min (taxable_income - P + P) b) = true).
  { apply Qleb_true. rewrite Hend. lra. }
  rewrite Hbreak.
  destruct (Qltb (py_max (taxable_income - P) 0)
              (py_min (taxable_income - P + P) b)); [| reflexivity].
  assert (Z : forall x : Q, 0.0 + x * 0.00 == 0) by (intros x; ring).
  apply Z.
Qed.

Lemma ltcg_tax_zero_bracket_witness :
  calculate_ltcg_tax 30000 5000 47025 HEAD_HOUSEHOLD == 0.
Proof.
  apply (ltcg_tax_zero_bracket 30000 5000 47025 HEAD_HOUSEHOLD).
  vm_compute. discriminate.
Defined.

(** ** Self-employment tax *)

(** X6. The deduction is half of the tax, the tax is never negative and it
    does not go down when the income goes up. *)
Theorem se_tax_half_nonnegative_monotone (x1 x2 : Q) :
  x1 <= x2 ->
  snd (calculate_se_tax x1) == fst (calculate_se_tax x1) / 2 /\
  0 <= fst (calculate_se_tax x1) /\
  fst (calculate_se_tax x1) <= fst (calculate_se_tax x2).
Proof.
  intros Hx. unfold calculate_se_tax, py_min, SS_WAGE_BASE,
    MEDICARE_ADDITIONAL_RATE.
  split; [| split].
  - case_Qleb x1 0; cbn [fst snd]; reflexivity.
  - repeat (case_cmp; cbn [fst snd]; try lra).
  - repeat (case_cmp; cbn [fst snd]; try lra).
Qed.

Lemma se_tax_half_nonnegative_monotone_witness :
  snd (calculate_se_tax 150000) == fst (calculate_se_tax 150000) / 2 /\
  0 <= fst (calculate_se_tax 150000) /\
  fst (calculate_se_tax 150000) <= fst (calculate_se_tax 250000).
Proof.
  apply (se_tax_half_nonnegative_monotone 150000 250000).
  vm_compute. discriminate.
Defined.

(** X7. While 92.35% of the income stays within the Social Security wage
    base, the tax is [SE_TAX_RATE], 15.3%, of that net income; above the
    base the Social Security part stays at 12.4% of the base. *)
Theorem se_tax_wage_base (x : Q) :
  0 < x ->
  (x * 0.9235 <= SS_WAGE_BASE ->
   fst (calculate_se_tax x) == x * 0.9235 * SE_TAX_RATE) /\
  (SS_WAGE_BASE <= x * 0.9235 -> x * 0.9235 <= 200000 ->
   fst (calculate_se_tax x) == SS_WAGE_BASE * 0.124 + x * 0.9235 * 0.029) /\
  (200000 < x * 0.9235 ->
   fst (calculate_se_tax x)
   == SS_WAGE_BASE * 0.124 + x * 0.9235 * 0.029
      + (x * 0.9235 - 200000) * MEDICARE_ADDITIONAL_RATE).
Proof.
  intros Hx. unfold calculate_se_tax, py_min, SS_WAGE_BASE, SE_TAX_RATE,
    MEDICARE_ADDITIONAL_RATE.
  repeat split; intros; repeat (case_cmp; cbn [fst snd]; try lra).
Qed.

Lemma se_tax_wage_base_witness :
  fst (calculate_se_tax 100000) == 100000 * 0.9235 * SE_TAX_RATE /\
  fst (calculate_se_tax 200000)
  == SS_WAGE_BASE * 0.124 + 200000 * 0.9235 * 0.029 /\
  fst (calculate_se_tax 300000)
  == SS_WAGE_BASE * 0.124 + 300000 * 0.9235 * 0.029
     + (300000 * 0.9235 - 200000) * MEDICARE_ADDITIONAL_RATE.
Proof.
  split; [| split].
  - apply (proj1 (se_tax_wage_base 100000 ltac:(vm_compute; reflexivity))).
    vm_compute. discriminate.
  - apply (proj1 (proj2
             (se_tax_wage_base 200000 ltac:(vm_compute; reflexivity))));
      vm_compute; discriminate.
  - apply (proj2 (proj2
             (se_tax_wage_base 300000 ltac:(vm_compute; reflexivity)))).
    vm_compute. reflexivity.
Defined.

(** ** Net investment income tax *)

(** X8. At or below the threshold there is no surtax.  Above it, with an
    investment income that is not negative, the surtax is between 0 and
    3.8% of the smaller of the investment income and the excess over the
    threshold.  A filing status without a threshold of its own uses
    200,000, the threshold of a single filer. *)
Theorem niit_bounds (magi investment_income : Q)
    (filing_status : FilingStatus) :
  let threshold := default 200000 (NIIT_THRESHOLD !! filing_status) in
  (magi <= threshold ->
   calculate_niit magi investment_income filing_status == 0) /\
  (threshold < magi -> 0 <= investment_income ->
   0 <= calculate_niit magi investment_income filing_status /\
   calculate_niit magi investment_income filing_status
   == 0.038 * Qmin (magi - threshold) investment_income) /\
  (NIIT_THRESHOLD !! filing_status = None ->
   calculate_niit magi investment_income filing_status
   = calculate_niit magi investment_income SINGLE).
Proof.
  intros threshold. unfold calculate_niit. fold threshold.
  split; [| split].
  - intros H. apply Qleb_true in H. rewrite H. reflexivity.
  - intros H Hinv. apply Qleb_false in H. rewrite H.
    rewrite py_min_Qmin.
    generalize (Q.min_spec (magi - threshold) investment_income).
    generalize (Qmin (magi - threshold) investment_income).
    intros mn Hmn. apply Qleb_false in H.
    destruct Hmn as [[? ?] | [? ?]]; split; lra.
  - intros H. subst threshold. rewrite H. reflexivity.
Qed.

Lemma niit_bounds_witness :
  calculate_niit 180000 50000 HEAD_HOUSEHOLD == 0 /\
  (0 <= calculate_niit 300000 50000 SINGLE /\
   calculate_niit 300000 50000 SINGLE
   == 0.038 * Qmin (300000 - 200000) 50000) /\
  calculate_niit 300000 50000 WIDOW = calculate_niit 300000 50000 SINGLE.
Proof.
  split; [| split].
  - apply (proj1 (niit_bounds 180000 50000 HEAD_HOUSEHOLD)).
    vm_compute. discriminate.
  - apply (proj1 (proj2 (niit_bounds 300000 50000 SINGLE)));
      [vm_compute; reflexivity | vm_compute; discriminate].
  - apply (proj2 (proj2 (niit_bounds 300000 50000 WIDOW))).
    vm_compute. reflexivity.
Defined.

(** X9. The surtax has no floor at zero: above the threshold, a negative
    investment income gives a negative surtax of 3.8% of it. *)
Theorem niit_negative_investment_income (magi investment_income : Q)
    (filing_status : FilingStatus) :
  default 200000 (NIIT_THRESHOLD !! filing_status) < magi ->
  investment_income < 0 ->
  calculate_niit magi investment_income filing_status
  == 0.038 * investment_income /\
  calculate_niit magi investment_income filing_status < 0.
Proof.
  intros H Hinv. unfold calculate_niit.
  apply Qleb_false in H. rewrite H. apply Qleb_false in H.
  unfold py_min. case_cmp; split; lra.
Qed.

Lemma niit_negative_investment_income_witness :
  calculate_niit 260000 (-10000) MARRIED_JOINT == 0.038 * (-10000) /\
  calculate_niit 260000 (-10000) MARRIED_JOINT < 0.
Proof.
  apply (niit_negative_investment_income 260000 (-10000) MARRIED_JOINT);
    vm_compute; reflexivity.
Defined.

(** ** Child and dependent credit: phase-out *)

Lemma credit_reduction_nonneg (agi threshold : Q) :
  threshold < agi ->
  0 <= inject_Z (Qfloor ((agi - threshold) / 1000)) * 50.
Proof.
  intros H.
  assert (Hf : (0 <= Qfloor ((agi - threshold) / 1000))%Z).
  { rewrite <- (Qfloor_Z 0). apply Qfloor_resp_le.
    change (inject_Z 0) with 0. apply Qle_shift_div_l; lra. }
  rewrite Zle_Qle in Hf. change (inject_Z 0) with 0 in Hf. lra.
Qed.

Lemma credit_reduction_mono (a1 a2 threshold : Q) :
  a1 <= a2 ->
  inject_Z (Qfloor ((a1 - threshold) / 1000)) * 50
  <= inject_Z (Qfloor ((a2 - threshold) / 1000)) * 50.
Proof.
  intros H.
  assert (Hf : (Qfloor ((a1 - threshold) / 1000)
                <= Qfloor ((a2 - threshold) / 1000))%Z).
  { apply Qfloor_resp_le. apply Qmult_le_compat_r; [lra |].
    vm_compute. discriminate. }
  rewrite Zle_Qle in Hf. lra.
Qed.

(** X10. For counts that are not negative the credit is never negative, never
    more than the full credit, does not go up when the AGI goes up, and is
    gone once the AGI is above the threshold by 20 times the full credit
    (1,000 of AGI for each 50 of credit). *)
Theorem child_tax_credit_shrinks
    (children_under_17 children_17_plus : Z) (agi1 agi2 : Q)
    (filing_status : FilingStatus) :
  (0 <= children_under_17)%Z -> (0 <= children_17_plus)%Z ->
  agi1 <= agi2 ->
  let credit agi :=
    calculate_child_tax_credit children_under_17 children_17_plus agi
      filing_status in
  let full := inject_Z (children_under_17 * 2000 + children_17_plus * 500) in
  0 <= credit agi2 /\ credit agi2 <= credit agi1 /\ credit agi1 <= full /\
  (20 * full <= agi2 - phase_out_threshold filing_status ->
   credit agi2 == 0).
Proof.
  intros H17 H17p Ha credit full. subst credit. cbv beta.
  unfold calculate_child_tax_credit.
  assert (Hthr : (if decide (filing_status = MARRIED_JOINT)
                  then 400000 else 200000)
                 = phase_out_threshold filing_status).
  { destruct filing_status; reflexivity. }
  rewrite Hthr. set (threshold := phase_out_threshold filing_status).
  fold full.
  assert (Hfull : 0 <= full).
  { subst full. change 0 with (inject_Z 0). rewrite <- Zle_Qle. lia. }
  pose proof (credit_reduction_mono agi1 agi2 threshold Ha) as Hmono.
  set (red1 := inject_Z (Qfloor ((agi1 - threshold) / 1000)) * 50) in *.
  set (red2 := inject_Z (Qfloor ((agi2 - threshold) / 1000)) * 50) in *.
  assert (Hred1 : threshold < agi1 -> 0 <= red1)
    by apply credit_reduction_nonneg.
  assert (Hred2 : threshold < agi2 -> 0 <= red2)
    by apply credit_reduction_nonneg.
  assert (Hout : threshold < agi2 -> 20 * full <= agi2 - threshold ->
                 full <= red2).
  { intros _ H. subst red2 full.
    set (k := (children_under_17 * 40 + children_17_plus * 10)%Z).
    assert (Hk : inject_Z (children_under_17 * 2000 + children_17_plus * 500)
                 == inject_Z k * 50).
    { subst k. rewrite <- (inject_Z_mult _ 50). apply inject_Z_injective.
      lia. }
    rewrite Hk in H |- *.
    assert (Hf : (k <= Qfloor ((agi2 - threshold) / 1000))%Z).
    { rewrite <- (Qfloor_Z k) at 1. apply Qfloor_resp_le.
      apply Qle_shift_div_l; lra. }
    rewrite Zle_Qle in Hf. lra. }
  clearbody red1 red2. unfold py_max.
  case_Qltb threshold agi1; case_Qltb threshold agi2;
    repeat (case_cmp; try lra);
    repeat split; intros; try lra;
    try (specialize (Hred1 ltac:(assumption)));
    try (specialize (Hred2 ltac:(assumption)));
    try (specialize (Hout ltac:(assumption) ltac:(assumption)));
    lra.
Qed.

Lemma child_tax_credit_shrinks_witness :
  0 <= calculate_child_tax_credit 2 0 480000 MARRIED_JOINT /\
  calculate_child_tax_credit 2 0 480000 MARRIED_JOINT
  <= calculate_child_tax_credit 2 0 410500 MARRIED_JOINT /\
  calculate_child_tax_credit 2 0 410500 MARRIED_JOINT
  <= inject_Z (2 * 2000 + 0 * 500) /\
  calculate_child_tax_credit 2 0 480000 MARRIED_JOINT == 0.
Proof.
  destruct (child_tax_credit_shrinks 2 0 410500 480000 MARRIED_JOINT)
    as (H1 & H2 & H3 & H4); try (vm_compute; discriminate).
  refine (conj H1 (conj H2 (conj H3 (H4 _)))).
  vm_compute. discriminate.
Defined.

(** ** State tax *)

Lemma STATE_TAX_RATES_bounds (code : string) (rate : Q) :
  STATE_TAX_RATES !! code = Some rate -> 0 <= rate /\ rate <= 0.133.
Proof.
  intros H. apply elem_of_list_to_map_2 in H.
  repeat (apply elem_of_cons in H as [H | H];
          [injection H as _ ->; split; vm_compute; discriminate |]).
  apply elem_of_nil in H. destruct H.
Qed.

(** X11. For a taxable income that is not negative, the state tax of every
    state string is between 0 and 13.3% of it, the top rate of the
    table. *)
Theorem state_tax_bounds (taxable_income : Q) (state : string) :
  0 <= taxable_income ->
  0 <= calculate_state_tax taxable_income state /\
  calculate_state_tax taxable_income state <= 0.133 * taxable_income.
Proof.
  intros H. unfold calculate_state_tax.
  assert (Hr : 0 <= default 0.05 (STATE_TAX_RATES !! upper state) /\
               default 0.05 (STATE_TAX_RATES !! upper state) <= 0.133).
  { destruct (STATE_TAX_RATES !! upper state) as [rate |] eqn:E.
    - exact (STATE_TAX_RATES_bounds _ _ E).
    - split; vm_compute; discriminate. }
  destruct Hr as [Hr0 Hr1].
  set (rate := default 0.05 (STATE_TAX_RATES !! upper state)) in *.
  clearbody rate. split.
  - apply Qmult_le_0_compat; assumption.
  - assert (rate * taxable_income <= 0.133 * taxable_income)
      by (apply Qmult_le_compat_r; assumption).
    lra.
Qed.

Lemma state_tax_bounds_witness :
  0 <= calculate_state_tax 80000 "ny" /\
  calculate_state_tax 80000 "ny" <= 0.133 * 80000.
Proof.
  apply (state_tax_bounds 80000 "ny"). vm_compute. discriminate.
Defined.

(** X12. The nine states of the table with a rate of zero levy no tax, in
    whatever letter case the code is written. *)
Theorem state_tax_none (taxable_income : Q) (state : string) :
  In (upper state) NO_INCOME_TAX_STATES ->
  calculate_state_tax taxable_income state == 0.
Proof.
  intros H. unfold calculate_state_tax.
  repeat (destruct H as [<- | H];
          [assert (E : forall x : Q, x * 0.00 == 0) by (intros x; ring);
           apply E |]).
  destruct H.
Qed.

Lemma state_tax_none_witness : calculate_state_tax 123456 "Tx" == 0.
Proof.
  apply (state_tax_none 123456 "Tx"). left. reflexivity.
Defined.

(** ** Rounding *)

Lemma round_half_even_close (y : Q) :
  y - (1 # 2) <= inject_Z (round_half_even y) /\
  inject_Z (round_half_even y) <= y + (1 # 2).
Proof.
  unfold round_half_even.
  pose proof (Qfloor_le y) as Hlo. pose proof (Qlt_floor y) as Hhi.
  rewrite inject_Z_plus in Hhi. change (inject_Z 1) with 1 in Hhi.
  repeat case_cmp; try destruct (Z.even (Qfloor y));
    rewrite ?inject_Z_plus; change (inject_Z 1) with 1; split; lra.
Qed.

Lemma round_half_even_nonneg (y : Q) :
  0 <= y -> (0 <= round_half_even y)%Z.
Proof.
  intros H. unfold round_half_even.
  assert (Hf : (0 <= Qfloor y)%Z).
  { rewrite <- (Qfloor_Z 0). apply Qfloor_resp_le. exact H. }
  repeat case_cmp; try destruct (Z.even (Qfloor y)); lia.
Qed.

(** [round(x, 2)] is within half a cent of [x]. *)
Lemma py_round_2_close (x : Q) :
  x - 0.005 <= py_round x 2 /\ py_round x 2 <= x + 0.005.
Proof.
  unfold py_round. change (inject_Z (10 ^ Z.of_nat 2)) with 100.
  destruct (round_half_even_close (x * 100)) as [H1 H2].
  set (z := inject_Z (round_half_even (x * 100))) in *. clearbody z.
  assert (E : z / 100 == z * 0.01) by (unfold Qdiv; reflexivity).
  rewrite E. split; lra.
Qed.

Lemma py_round_2_nonneg (x : Q) : 0 <= x -> 0 <= py_round x 2.
Proof.
  intros H. unfold py_round. change (inject_Z (10 ^ Z.of_nat 2)) with 100.
  assert (Hz : (0 <= round_half_even (x * 100))%Z)
    by (apply round_half_even_nonneg; lra).
  rewrite Zle_Qle in Hz. change (inject_Z 0) with 0 in Hz.
  set (z := inject_Z (round_half_even (x * 100))) in *. clearbody z.
  assert (E : z / 100 == z * 0.01) by (unfold Qdiv; reflexivity).
  rewrite E. lra.
Qed.

(** ** Further steps of the orchestrator *)

Section MoreSteps.
Variable i : TaxInput.t.
Let l := calculate_taxes_locals i.

Lemma locals_federal :
  (Locals.federal_ordinary l, Locals.marginal_rate l)
  = calculate_federal_tax (Locals.ordinary_taxable l)
      (TaxInput.filing_status i).
Proof. subst l. open_locals. symmetry. assumption. Qed.

Lemma locals_federal_total :
  Locals.federal_total l
  = Locals.federal_ordinary l + Locals.federal_ltcg l.
Proof. subst l. open_locals. reflexivity. Qed.

Lemma locals_state_tax :
  Locals.state_tax l
  = calculate_state_tax (Locals.taxable_income l) (TaxInput.state i).
Proof. subst l. open_locals. reflexivity. Qed.

Lemma locals_child_credit :
  Locals.child_credit l
  = calculate_child_tax_credit (TaxInput.children_under_17 i)
      (TaxInput.children_17_plus i) (Locals.agi l)
      (TaxInput.filing_status i).
Proof. subst l. open_locals. reflexivity. Qed.

Lemma locals_education_credit :
  Locals.education_credit l
  = py_min (TaxInput.education_expenses i * 0.2) 2000.
Proof. subst l. open_locals. reflexivity. Qed.

Lemma locals_total_credits :
  Locals.total_credits l
  = Locals.child_credit l + Locals.education_credit l.
Proof. subst l. open_locals. reflexivity. Qed.

Lemma locals_total_tax :
  Locals.total_tax l
  = Locals.federal_total l + Locals.se_tax l + Locals.niit l
    + Locals.state_tax l.
Proof. subst l. open_locals. reflexivity. Qed.

Lemma locals_quarterly_estimate :
  Locals.quarterly_estimate l = Locals.tax_after_credits l / 4.
Proof. subst l. open_locals. reflexivity. Qed.
End MoreSteps.

Lemma locals_federal_ordinary (i : TaxInput.t) :
  Locals.federal_ordinary (calculate_taxes_locals i)
  = fst (calculate_federal_tax
           (Locals.ordinary_taxable (calculate_taxes_locals i))
           (TaxInput.filing_status i)).
Proof. rewrite <- locals_federal. reflexivity. Qed.

Lemma locals_marginal_rate (i : TaxInput.t) :
  Locals.marginal_rate (calculate_taxes_locals i)
  = snd (calculate_federal_tax
           (Locals.ordinary_taxable (calculate_taxes_locals i))
           (TaxInput.filing_status i)).
Proof. rewrite <- locals_federal. reflexivity. Qed.

(** ** Invariants of the orchestrator *)

(** X13. Whatever the input, the taxable income, the ordinary part of it and
    the tax after credits are not negative, and neither are the fields of
    the result that report them, the quarterly estimate and the effective
    rate. *)
Theorem orchestrator_nonnegative (i : TaxInput.t) :
  let l := calculate_taxes_locals i in
  let r := calculate_taxes i in
  0 <= Locals.taxable_income l /\
  0 <= Locals.ordinary_taxable l /\
  0 <= Locals.tax_after_credits l /\
  0 <= TaxResult.taxable_income r /\
  0 <= TaxResult.tax_after_credits r /\
  0 <= TaxResult.quarterly_estimate r /\
  0 <= TaxResult.effective_rate r.
Proof.
  intros l r.
  assert (HT : 0 <= Locals.taxable_income l).
  { subst l. rewrite locals_taxable_income. apply py_max_ge_l. }
  assert (HO : 0 <= Locals.ordinary_taxable l).
  { subst l. rewrite locals_ordinary_taxable. apply py_max_ge_l. }
  assert (HA : 0 <= Locals.tax_after_credits l).
  { subst l. rewrite locals_tax_after_credits. apply py_max_ge_l. }
  split; [exact HT | split; [exact HO | split; [exact HA |]]].
  subst r. unfold calculate_taxes.
  cbn [TaxResult.taxable_income TaxResult.tax_after_credits
       TaxResult.quarterly_estimate TaxResult.effective_rate].
  fold l. repeat split; apply py_round_2_nonneg; try assumption.
  - subst l. rewrite locals_quarterly_estimate.
    apply Qle_shift_div_l; [reflexivity | lra].
  - subst l. rewrite locals_effective_rate. case_cmp; [| lra].
    apply Qmult_le_0_compat; [| vm_compute; discriminate].
    apply Qle_shift_div_l; [exact Hlt | lra].
Qed.

(** ** How the taxable income is split *)

(** X14. With a preferential income that is not negative, the ordinary part
    and the preferential income that fits add up to the taxable income.
    With a negative one (a net loss) the ordinary part is the taxable
    income plus the loss: more than the taxable income. *)
Theorem taxable_income_split (i : TaxInput.t) :
  let l := calculate_taxes_locals i in
  let P := Locals.preferential_income l in
  let T := Locals.taxable_income l in
  (0 <= P -> Locals.ordinary_taxable l + Qmin P T == T) /\
  (P < 0 -> Locals.ordinary_taxable l == T - P /\
            T < Locals.ordinary_taxable l).
Proof.
  intros l P T.
  assert (HT : 0 <= T).
  { subst T l. rewrite locals_taxable_income. apply py_max_ge_l. }
  assert (HO : Locals.ordinary_taxable l = py_max 0 (T - P))
    by apply locals_ordinary_taxable.
  rewrite HO. unfold py_max.
  generalize (Q.min_spec P T). generalize (Qmin P T). intros mn Hmn.
  split; intros HP; case_cmp; destruct Hmn as [[? ?] | [? ?]];
    try split; lra.
Qed.

Lemma taxable_income_split_witness :
  (let l := calculate_taxes_locals (income_only 50000 0 20000) in
   Locals.ordinary_taxable l
   + Qmin (Locals.preferential_income l) (Locals.taxable_income l)
   == Locals.taxable_income l) /\
  (let l := calculate_taxes_locals (income_only 50000 0 (-10000)) in
   Locals.ordinary_taxable l
   == Locals.taxable_income l - Locals.preferential_income l /\
   Locals.taxable_income l < Locals.ordinary_taxable l).
Proof.
  split.
  - apply (proj1 (taxable_income_split (income_only 50000 0 20000))).
    vm_compute. discriminate.
  - apply (proj2 (taxable_income_split (income_only 50000 0 (-10000)))).
    vm_compute. reflexivity.
Defined.

(** ** Federal tax of the orchestrator *)

(** X15. With a preferential income that is not negative, the federal tax is
    not negative and at most 37% of the taxable income. *)
Theorem federal_total_bounds (i : TaxInput.t) :
  let l := calculate_taxes_locals i in
  0 <= Locals.preferential_income l ->
  0 <= Locals.federal_ordinary l /\
  0 <= Locals.federal_ltcg l /\
  0 <= Locals.federal_total l /\
  Locals.federal_total l <= 0.37 * Locals.taxable_income l.
Proof.
  intros l. subst l. intros HP.
  pose proof (locals_taxable_income i) as HTeq.
  pose proof (locals_ordinary_taxable i) as Hsplit.
  pose proof (locals_federal_total i) as Htot.
  pose proof (locals_federal_ordinary i) as Hfo.
  pose proof (locals_federal_ltcg i) as Hfl.
  pose proof (locals_preferential_income i) as HPeq.
  (* the ordinary part *)
  pose proof (federal_loop_total 0.10 0.37 _
                (Locals.ordinary_taxable (calculate_taxes_locals i))
                0.0 (Fin 0) 0.10
                (FEDERAL_BRACKETS_complete (TaxInput.filing_status i)))
    as [Ho1 Ho2].
  unfold calculate_federal_tax in Hfo. rewrite <- Hfo in Ho1, Ho2.
  cbn [beyond] in Ho1, Ho2.
  (* the preferential part *)
  pose proof (ltcg_tax_range (TaxInput.long_term_gains i)
                (TaxInput.dividends_qualified i)
                (Locals.taxable_income (calculate_taxes_locals i))
                (TaxInput.filing_status i)) as [Hl1 Hl2].
  rewrite <- Hfl in Hl1, Hl2. rewrite <- HPeq in Hl2.
  (* the two parts fill the taxable income *)
  set (T := Locals.taxable_income (calculate_taxes_locals i)) in *.
  set (P := Locals.preferential_income (calculate_taxes_locals i)) in *.
  set (O := Locals.ordinary_taxable (calculate_taxes_locals i)) in *.
  set (FO := Locals.federal_ordinary (calculate_taxes_locals i)) in *.
  set (FL := Locals.federal_ltcg (calculate_taxes_locals i)) in *.
  assert (HT : 0 <= T) by (rewrite HTeq; apply py_max_ge_l).
  rewrite Htot. clear Htot Hfo Hfl HPeq HTeq.
  assert (Z0 : 0.0 == 0) by reflexivity.
  revert Hl2 Ho1 Ho2.
  generalize (Q.min_spec P T). generalize (Qmin P T). intros mn Hmn.
  generalize (Q.max_spec 0 mn). generalize (Qmax 0 mn). intros mx Hmx.
  generalize (Q.max_spec 0 (O - 0)). generalize (Qmax 0 (O - 0)).
  intros mo Hmo Hl2 Ho1 Ho2.
  assert (HO : O == T - P \/ O == 0 /\ T - P <= 0).
  { rewrite Hsplit. unfold py_max. case_cmp; [left | right; split];
      try reflexivity; lra. }
  clearbody T P O FO FL.
  destruct HO as [HO | [HO HO']],
    Hmn as [[? ?] | [? ?]], Hmx as [[? ?] | [? ?]], Hmo as [[? ?] | [? ?]];
    repeat split; lra.
Qed.

Lemma federal_total_bounds_witness :
  let l := calculate_taxes_locals (income_only 120000 0 40000) in
  0 <= Locals.federal_ordinary l /\
  0 <= Locals.federal_ltcg l /\
  0 <= Locals.federal_total l /\
  Locals.federal_total l <= 0.37 * Locals.taxable_income l.
Proof.
  apply (federal_total_bounds (income_only 120000 0 40000)).
  vm_compute. discriminate.
Defined.

(** X16. When the AGI does not exceed the deduction and the preferential income
    is not negative, nothing is taxable: the federal tax and the state tax
    are 0 and the marginal rate reported is 10.0. *)
Theorem nothing_taxable (i : TaxInput.t) :
  let l := calculate_taxes_locals i in
  Locals.agi l <= Locals.deductions l ->
  0 <= Locals.preferential_income l ->
  Locals.taxable_income l == 0 /\
  Locals.federal_total l == 0 /\
  Locals.state_tax l == 0 /\
  TaxResult.marginal_rate (calculate_taxes i) == 10.
Proof.
  intros l. subst l. intros Hagi HP.
  assert (HT : Locals.taxable_income (calculate_taxes_locals i) = 0).
  { rewrite locals_taxable_income. unfold py_max.
    case_cmp; [lra | reflexivity]. }
  assert (HO : Locals.ordinary_taxable (calculate_taxes_locals i) = 0).
  { rewrite locals_ordinary_taxable. rewrite HT.
    unfold py_max. case_cmp; [lra | reflexivity]. }
  pose proof (locals_federal i) as HF. rewrite HO in HF.
  rewrite (federal_tax_zero_amount (TaxInput.filing_status i)) in HF.
  injection HF as HF1 HF2.
  pose proof (ltcg_tax_range (TaxInput.long_term_gains i)
                (TaxInput.dividends_qualified i)
                (Locals.taxable_income (calculate_taxes_locals i))
                (TaxInput.filing_status i)) as [Hl1 Hl2].
  rewrite <- (locals_federal_ltcg i) in Hl1, Hl2.
  rewrite <- (locals_preferential_income i) in Hl2.
  rewrite HT in Hl2.
  assert (Hmx : Qmax 0 (Qmin (Locals.preferential_income
                                (calculate_taxes_locals i)) 0) == 0).
  { rewrite Q.min_r by exact HP. apply Q.max_l. lra. }
  rewrite Hmx in Hl2.
  split; [rewrite HT; reflexivity |].
  split; [| split].
  - rewrite (locals_federal_total i), HF1.
    assert (Z0 : 0.0 == 0) by reflexivity. lra.
  - rewrite (locals_state_tax i), HT.
    unfold calculate_state_tax. ring.
  - unfold calculate_taxes. cbn [TaxResult.marginal_rate].
    rewrite HF2. vm_compute. reflexivity.
Qed.

Lemma nothing_taxable_witness :
  let l := calculate_taxes_locals (income_only 9000 0 4000) in
  Locals.taxable_income l == 0 /\
  Locals.federal_total l == 0 /\
  Locals.state_tax l == 0 /\
  TaxResult.marginal_rate (calculate_taxes (income_only 9000 0 4000)) == 10.
Proof.
  apply (nothing_taxable (income_only 9000 0 4000));
    vm_compute; discriminate.
Defined.

(** ** Deductions and credits of the orchestrator *)

(** X17. The standard amount is the table value plus at most 3,100 of age
    add-ons, and the spouse's add-on counts only for married_joint.  The
    deduction is at least the standard and the itemized amount, so the
    taxable income is at most what is left of the AGI above the table
    value. *)
Theorem deduction_floor (i : TaxInput.t) :
  let l := calculate_taxes_locals i in
  let status := TaxInput.filing_status i in
  STANDARD_DEDUCTION status <= Locals.standard l /\
  Locals.standard l <= STANDARD_DEDUCTION status + 3100 /\
  (status <> MARRIED_JOINT ->
   Locals.standard l
   == STANDARD_DEDUCTION status
      + (if TaxInput.age_65_plus i
         then default 1550 (ADDITIONAL_DEDUCTION !! status) else 0)) /\
  Locals.standard l <= Locals.deductions l /\
  Locals.itemized l <= Locals.deductions l /\
  Locals.taxable_income l
  <= Qmax 0 (Locals.agi l - STANDARD_DEDUCTION status).
Proof.
  intros l status. subst l status.
  pose proof (locals_standard i) as Hs. cbv zeta in Hs.
  pose proof (locals_deductions i) as Hd.
  pose proof (locals_taxable_income i) as Ht.
  set (S := Locals.standard (calculate_taxes_locals i)) in *.
  set (I := Locals.itemized (calculate_taxes_locals i)) in *.
  set (D := Locals.deductions (calculate_taxes_locals i)) in *.
  set (A := Locals.agi (calculate_taxes_locals i)) in *.
  assert (HS : STANDARD_DEDUCTION (TaxInput.filing_status i) <= S /\
               S <= STANDARD_DEDUCTION (TaxInput.filing_status i) + 3100).
  { rewrite Hs.
    destruct (TaxInput.filing_status i), (TaxInput.age_65_plus i),
      (TaxInput.spouse_age_65_plus i); vm_compute; split; discriminate. }
  assert (HD : S <= D /\ I <= D).
  { case_Qltb S I; injection Hd as -> _; split; lra. }
  destruct HS as [HS1 HS2], HD as [HD1 HD2].
  split; [exact HS1 | split; [exact HS2 | split]].
  - intros Hmj. rewrite Hs.
    rewrite (bool_decide_eq_false_2 _ Hmj), andb_false_r.
    destruct (TaxInput.age_65_plus i); ring.
  - split; [exact HD1 | split; [exact HD2 |]].
    rewrite Ht, py_max_Qmax. apply Q.max_le_compat_l. lra.
Qed.

Lemma deduction_floor_witness :
  let i := income_only 70000 0 0 in
  Locals.standard (calculate_taxes_locals i)
  == STANDARD_DEDUCTION SINGLE
     + (if TaxInput.age_65_plus i
        then default 1550 (ADDITIONAL_DEDUCTION !! SINGLE) else 0).
Proof.
  apply (proj1 (proj2 (proj2 (deduction_floor (income_only 70000 0 0))))).
  discriminate.
Defined.

Lemma child_credit_range (u v : Z) (agi : Q) (fs : FilingStatus) :
  (0 <= u)%Z -> (0 <= v)%Z ->
  0 <= calculate_child_tax_credit u v agi fs /\
  calculate_child_tax_credit u v agi fs
  <= inject_Z u * 2000 + inject_Z v * 500.
Proof.
  intros Hu Hv. unfold calculate_child_tax_credit.
  assert (E : inject_Z (u * 2000 + v * 500)
              == inject_Z u * 2000 + inject_Z v * 500).
  { rewrite inject_Z_plus, !inject_Z_mult. reflexivity. }
  rewrite Zle_Qle in Hu, Hv. change (inject_Z 0) with 0 in Hu, Hv.
  set (threshold := if decide (fs = MARRIED_JOINT) then 400000 else 200000).
  case_Qltb threshold agi; [| split; lra].
  pose proof (credit_reduction_nonneg agi threshold Hlt) as Hred.
  unfold py_max. case_cmp; split; lra.
Qed.

(** X18. With counts and education expenses that are not negative, the credits
    are between 0 and the full child credit plus 2,000; the education
    credit is 2,000 from 10,000 of expenses on. *)
Theorem total_credits_bounds (i : TaxInput.t) :
  let l := calculate_taxes_locals i in
  (0 <= TaxInput.children_under_17 i)%Z ->
  (0 <= TaxInput.children_17_plus i)%Z ->
  0 <= TaxInput.education_expenses i ->
  0 <= Locals.total_credits l /\
  Locals.total_credits l
  <= inject_Z (TaxInput.children_under_17 i) * 2000
     + inject_Z (TaxInput.children_17_plus i) * 500 + 2000 /\
  Locals.education_credit l <= 2000 /\
  (10000 <= TaxInput.education_expenses i ->
   Locals.education_credit l == 2000).
Proof.
  intros l. subst l. intros Hu Hv He.
  rewrite (locals_total_credits i), (locals_child_credit i),
    (locals_education_credit i).
  destruct (child_credit_range _ _
              (Locals.agi (calculate_taxes_locals i))
              (TaxInput.filing_status i) Hu Hv) as [Hc1 Hc2].
  set (c := calculate_child_tax_credit _ _ _ _) in *. clearbody c.
  unfold py_min. case_cmp; repeat split; intros; lra.
Qed.

Lemma total_credits_bounds_witness :
  let l := calculate_taxes_locals (wages_and_education 90000 12000) in
  0 <= Locals.total_credits l /\
  Locals.total_credits l <= inject_Z 0 * 2000 + inject_Z 0 * 500 + 2000 /\
  Locals.education_credit l <= 2000 /\
  Locals.education_credit l == 2000.
Proof.
  assert (Hu : (0 <= 0)%Z) by discriminate.
  assert (He : 0 <= 12000) by discriminate.
  assert (Hx : 10000 <= 12000) by discriminate.
  pose proof (total_credits_bounds (wages_and_education 90000 12000)
                Hu Hu He) as (H1 & H2 & H3 & H4).
  exact (conj H1 (conj H2 (conj H3 (H4 Hx)))).
Defined.

(** ** The result record *)

(** X19. The money fields of the result are the amounts computed, up to half a
    cent; four quarterly estimates make the tax after credits up to two
    cents. *)
Theorem result_rounding (i : TaxInput.t) :
  let l := calculate_taxes_locals i in
  let r := calculate_taxes i in
  within_half_cent (TaxResult.gross_income r) (Locals.gross_income l) /\
  within_half_cent (TaxResult.agi r) (Locals.agi l) /\
  within_half_cent (TaxResult.taxable_income r) (Locals.taxable_income l) /\
  within_half_cent (TaxResult.federal_tax_total r) (Locals.federal_total l) /\
  within_half_cent (TaxResult.total_tax r) (Locals.total_tax l) /\
  within_half_cent (TaxResult.tax_after_credits r)
    (Locals.tax_after_credits l) /\
  Locals.tax_after_credits l - 0.02 <= 4 * TaxResult.quarterly_estimate r /\
  4 * TaxResult.quarterly_estimate r <= Locals.tax_after_credits l + 0.02.
Proof.
  intros l r. subst l r. unfold calculate_taxes, within_half_cent.
  cbn [TaxResult.gross_income TaxResult.agi TaxResult.taxable_income
       TaxResult.federal_tax_total TaxResult.total_tax
       TaxResult.tax_after_credits TaxResult.quarterly_estimate].
  repeat (split; [apply py_round_2_close |]).
  rewrite (locals_quarterly_estimate i).
  destruct (py_round_2_close
              (Locals.tax_after_credits (calculate_taxes_locals i) / 4))
    as [H1 H2].
  set (t := Locals.tax_after_credits (calculate_taxes_locals i)) in *.
  set (q := py_round (t / 4) 2) in *. clearbody q.
  assert (E : t / 4 == t * 0.25) by (field; discriminate).
  rewrite E in H1, H2. split; lra.
Qed.

(** X20. The marginal rate of the result is one of 10, 12, 22, 24, 32, 35 and
    37, whatever the input. *)
Theorem result_marginal_rate (i : TaxInput.t) :
  Exists (Qeq (TaxResult.marginal_rate (calculate_taxes i)))
    FEDERAL_PERCENTAGES.
Proof.
  unfold calculate_taxes. cbn [TaxResult.marginal_rate].
  rewrite (locals_marginal_rate i). unfold calculate_federal_tax.
  pose proof (federal_loop_snd_In
                (default FEDERAL_SINGLE
                   (FEDERAL_BRACKETS !! TaxInput.filing_status i))
                (Locals.ordinary_taxable (calculate_taxes_locals i))
                0.0 (Fin 0) 0.10) as H.
  rewrite FEDERAL_BRACKETS_rates in H.
  set (m := snd (federal_loop _ _ _ _ _)) in *. clearbody m.
  unfold FEDERAL_PERCENTAGES.
  destruct H as [<- | H]; [apply Exists_cons_hd; vm_compute; reflexivity |].
  repeat (destruct H as [<- | H];
          [repeat (first [apply Exists_cons_hd; vm_compute; reflexivity
                         | apply Exists_cons_tl]) |]).
  destruct H.
Qed.

(** ** Stacking as a difference of two bracket walks *)

(** The tax a walk adds does not depend on the tax or the rate it starts
    with. *)
Lemma federal_loop_added (lo hi : Q) (bs : brackets)
    (a tax1 tax2 : Q) (prev : bound) (m1 m2 : Q) :
  complete lo hi prev bs = true ->
  fst (federal_loop a bs tax1 prev m1) - tax1
  == fst (federal_loop a bs tax2 prev m2) - tax2.
Proof.
  intros Hc.
  pose proof (federal_loop_slope lo hi bs a a tax1 tax2 prev m1 m2 Hc
                (Qle_refl a)) as H.
  cbv zeta in H. destruct H as [H1 H2].
  assert (E : beyond prev a - beyond prev a == 0) by ring.
  rewrite E in H1, H2. lra.
Qed.

(** [added bs p a]: what the ordinary walk over [bs] adds from the bound
    [p] on. *)
Lemma federal_loop_step (lo hi : Q) (bs : brackets) (b : bound) (rate : Q)
    (a p : Q) :
  complete lo hi (Fin p) ((b, rate) :: bs) = true ->
  p < a ->
  fst (federal_loop a ((b, rate) :: bs) 0 (Fin p) 0)
  == (min_bound a b - p) * rate + fst (federal_loop a bs 0 b 0).
Proof.
  intros Hc Ha. apply complete_cons in Hc as (_ & _ & _ & Hc).
  cbn [federal_loop]. rewrite (proj2 (Qleb_false a p) Ha).
  pose proof (federal_loop_added lo hi bs a
                (0 + (min_bound a b - p) * rate) 0 b rate 0 Hc) as H.
  lra.
Qed.

Lemma ltcg_loop_difference (lo hi : Q) (bs : brackets) :
  forall (f t tax p : Q),
    complete lo hi (Fin p) bs = true ->
    0 < t ->
    ltcg_loop f t bs tax (Fin p) - tax
    == fst (federal_loop (f + t) bs 0 (Fin p) 0)
       - fst (federal_loop f bs 0 (Fin p) 0).
Proof.
  induction bs as [| [bracket_max rate] bs IH]; intros f t tax p Hc Ht;
    [discriminate |].
  pose proof Hc as Hc0.
  apply complete_cons in Hc as (Hlo & Hhi & Hlt & Hc).
  set (e := f + t) in *. assert (Hfe : f < e) by (subst e; lra).
  (* the two ordinary walks, one step further *)
  assert (We : p < e ->
               fst (federal_loop e ((bracket_max, rate) :: bs) 0 (Fin p) 0)
               == (min_bound e bracket_max - p) * rate
                  + fst (federal_loop e bs 0 bracket_max 0))
    by (apply (federal_loop_step lo hi); exact Hc0).
  assert (Wf : p < f ->
               fst (federal_loop f ((bracket_max, rate) :: bs) 0 (Fin p) 0)
               == (min_bound f bracket_max - p) * rate
                  + fst (federal_loop f bs 0 bracket_max 0))
    by (apply (federal_loop_step lo hi); exact Hc0).
  assert (We0 : e <= p ->
                fst (federal_loop e ((bracket_max, rate) :: bs) 0 (Fin p) 0)
                == 0)
    by (intros H; rewrite (federal_loop_exhausted e 0 p 0 _ H); reflexivity).
  assert (Wf0 : f <= p ->
                fst (federal_loop f ((bracket_max, rate) :: bs) 0 (Fin p) 0)
                == 0)
    by (intros H; rewrite (federal_loop_exhausted f 0 p 0 _ H); reflexivity).
  set (WE := fst (federal_loop e ((bracket_max, rate) :: bs) 0 (Fin p) 0))
    in *.
  set (WF := fst (federal_loop f ((bracket_max, rate) :: bs) 0 (Fin p) 0))
    in *.
  clearbody WE WF.
  cbn [ltcg_loop max_bound]. fold e.
  destruct bracket_max as [b |];
    cbn [ge_bound min_bound lt_bound] in *.
  - apply Qltb_true in Hlt.
    assert (Rf : f <= b -> fst (federal_loop f bs 0 (Fin b) 0) == 0)
      by (intros H; rewrite (federal_loop_exhausted f 0 b 0 _ H);
          reflexivity).
    assert (Re : e <= b -> fst (federal_loop e bs 0 (Fin b) 0) == 0)
      by (intros H; rewrite (federal_loop_exhausted e 0 b 0 _ H);
          reflexivity).
    unfold py_min, py_max in *.
    case_Qleb b f.
    + (* the floor is above this bracket *)
      specialize (IH f t tax b Hc Ht). fold e in IH.
      specialize (We ltac:(lra)). specialize (Wf ltac:(lra)).
      revert We Wf. rewrite (proj2 (Qltb_true b e) ltac:(lra)).
      case_Qltb b f; intros We Wf; [lra |].
      assert (Hfb : f == b) by lra.
      assert (f * rate == b * rate) by (rewrite Hfb; reflexivity). lra.
    + specialize (Rf ltac:(lra)).
      case_Qltb b e.
      * (* the stack goes on above this bracket *)
        specialize (We ltac:(lra)).
        rewrite (proj2 (Qleb_false e b) Hlt0).
        case_Qltb f p.
        -- specialize (Wf0 ltac:(lra)).
           rewrite (proj2 (Qltb_true p b) Hlt).
           specialize (IH f t (tax + (b - p) * rate) b Hc Ht).
           fold e in IH. lra.
        -- rewrite (proj2 (Qltb_true f b) Hle).
           specialize (IH f t (tax + (b - f) * rate) b Hc Ht).
           fold e in IH.
           destruct (Qlt_le_dec p f) as [Hpf | Hpf].
           ++ specialize (Wf Hpf). revert Wf.
              rewrite (proj2 (Qltb_false b f) ltac:(lra)). intros Wf. lra.
           ++ specialize (Wf0 Hpf). assert (Hfp : f == p) by lra.
                 assert (f * rate == p * rate)
                   by (rewrite Hfp; reflexivity).
                 lra.
      * (* the stack ends in this bracket *)
        specialize (Re Hlt0).
        rewrite (proj2 (Qleb_true e e) ltac:(lra)).
        destruct (Qlt_le_dec p e) as [Hpe | Hpe].
        -- specialize (We Hpe).
           case_Qltb f p.
           ++ specialize (Wf0 ltac:(lra)).
              rewrite (proj2 (Qltb_true p e) Hpe). lra.
           ++ rewrite (proj2 (Qltb_true f e) Hfe).
              destruct (Qlt_le_dec p f) as [Hpf | Hpf].
              ** specialize (Wf Hpf). revert Wf.
                 rewrite (proj2 (Qltb_false b f) ltac:(lra)). intros Wf. lra.
              ** specialize (Wf0 Hpf). assert (Hfp : f == p) by lra.
                 assert (f * rate == p * rate)
                   by (rewrite Hfp; reflexivity).
                 lra.
        -- specialize (We0 Hpe). specialize (Wf0 ltac:(lra)).
           rewrite (proj2 (Qltb_true f p) ltac:(lra)).
           rewrite (proj2 (Qltb_false p e) Hpe). lra.
  - (* the last bracket *)
    rewrite (proj2 (Qleb_true e e) ltac:(lra)).
    assert (Rf : fst (federal_loop f bs 0 Inf 0) == 0)
      by (rewrite federal_loop_past_infinity; reflexivity).
    assert (Re : fst (federal_loop e bs 0 Inf 0) == 0)
      by (rewrite federal_loop_past_infinity; reflexivity).
    unfold py_max.
    destruct (Qlt_le_dec p e) as [Hpe | Hpe].
    + specialize (We Hpe).
      case_Qltb f p.
      * specialize (Wf0 ltac:(lra)).
        rewrite (proj2 (Qltb_true p e) Hpe). lra.
      * rewrite (proj2 (Qltb_true f e) Hfe).
        destruct (Qlt_le_dec p f) as [Hpf | Hpf].
        -- specialize (Wf Hpf). lra.
        -- specialize (Wf0 Hpf). assert (Hfp : f == p) by lra.
                 assert (f * rate == p * rate)
                   by (rewrite Hfp; reflexivity).
                 lra.
    + specialize (We0 Hpe). specialize (Wf0 ltac:(lra)).
      rewrite (proj2 (Qltb_true f p) ltac:(lra)).
      rewrite (proj2 (Qltb_false p e) Hpe). lra.
Qed.

Lemma federal_loop_amount_eq (lo hi : Q) (bs : brackets)
    (a1 a2 tax1 tax2 : Q) (prev : bound) (m1 m2 : Q) :
  complete lo hi prev bs = true ->
  a1 == a2 ->
  fst (federal_loop a1 bs tax1 prev m1) - tax1
  == fst (federal_loop a2 bs tax2 prev m2) - tax2.
Proof.
  intros Hc Ha.
  pose proof (federal_loop_slope lo hi bs a1 a2 tax1 tax2 prev m1 m2 Hc
                ltac:(lra)) as H.
  cbv zeta in H. destruct H as [H1 H2].
  assert (E : beyond prev a2 - beyond prev a1 == 0).
  { pose proof (beyond_mono prev a1 a2 ltac:(lra)).
    pose proof (beyond_mono prev a2 a1 ltac:(lra)). lra. }
  rewrite E in H1, H2. lra.
Qed.

(** X21. Stacking is a difference: the preferential tax of positive gains is
    the walk of the preferential schedule up to the taxable income minus
    the same walk up to the ordinary floor. *)
Theorem stacking_is_difference
    (ltcg qualified_dividends taxable_income : Q)
    (filing_status : FilingStatus) :
  0 < ltcg + qualified_dividends ->
  calculate_ltcg_tax ltcg qualified_dividends taxable_income filing_status
  == ltcg_cumulative filing_status taxable_income
     - ltcg_cumulative filing_status
         (taxable_income - (ltcg + qualified_dividends)).
Proof.
  intros HP. unfold calculate_ltcg_tax, ltcg_cumulative.
  rewrite (proj2 (Qleb_false _ _) HP).
  pose proof (LTCG_BRACKETS_complete filing_status) as Hc.
  set (bs := default LTCG_SINGLE (LTCG_BRACKETS !! filing_status)) in *.
  set (P := ltcg + qualified_dividends) in *.
  pose proof (ltcg_loop_difference 0 0.20 bs (taxable_income - P) P 0.0 0
                Hc HP) as Hd.
  pose proof (federal_loop_amount_eq 0 0.20 bs
                (taxable_income - P + P) taxable_income 0 0.0 (Fin 0)
                0 0.10 Hc ltac:(ring)) as He.
  pose proof (federal_loop_added 0 0.20 bs (taxable_income - P)
                0 0.0 (Fin 0) 0 0.10 Hc) as Hf.
  assert (Z0 : 0.0 == 0) by reflexivity. lra.
Qed.

Lemma stacking_is_difference_witness :
  calculate_ltcg_tax 30000 20000 100000 SINGLE
  == ltcg_cumulative SINGLE 100000
     - ltcg_cumulative SINGLE (100000 - (30000 + 20000)).
Proof.
  apply (stacking_is_difference 30000 20000 100000 SINGLE).
  vm_compute. reflexivity.
Defined.

Lemma stacking_difference_eq (P floor : Q) (fs : FilingStatus) :
  0 < P ->
  calculate_ltcg_tax P 0 (floor + P) fs
  == ltcg_cumulative fs (floor + P) - ltcg_cumulative fs floor.
Proof.
  intros HP. unfold calculate_ltcg_tax, ltcg_cumulative.
  rewrite (proj2 (Qleb_false (P + 0) 0) ltac:(lra)).
  pose proof (LTCG_BRACKETS_complete fs) as Hc.
  set (bs := default LTCG_SINGLE (LTCG_BRACKETS !! fs)) in *.
  pose proof (ltcg_loop_difference 0 0.20 bs (floor + P - (P + 0)) (P + 0)
                0.0 0 Hc ltac:(lra)) as Hd.
  pose proof (federal_loop_amount_eq 0 0.20 bs
                (floor + P - (P + 0) + (P + 0)) (floor + P) 0 0.0 (Fin 0)
                0 0.10 Hc ltac:(ring)) as He.
  pose proof (federal_loop_amount_eq 0 0.20 bs
                (floor + P - (P + 0)) floor 0 0.0 (Fin 0)
                0 0.10 Hc ltac:(ring)) as Hf.
  assert (Z0 : 0.0 == 0) by reflexivity. lra.
Qed.

(** X22. Stacking has no jump: over a fixed ordinary floor, more preferential
    income never lowers the preferential tax and adds at most 20% of the
    income added. *)
Theorem stacking_continuity (floor P1 P2 : Q)
    (filing_status : FilingStatus) :
  0 < P1 -> P1 <= P2 ->
  let tax P := calculate_ltcg_tax P 0 (floor + P) filing_status in
  0 <= tax P2 - tax P1 /\ tax P2 - tax P1 <= 0.20 * (P2 - P1).
Proof.
  intros H1 H12 tax. subst tax. cbv beta.
  rewrite (stacking_difference_eq P1 floor filing_status H1).
  rewrite (stacking_difference_eq P2 floor filing_status ltac:(lra)).
  unfold ltcg_cumulative.
  pose proof (LTCG_BRACKETS_complete filing_status) as Hc.
  set (bs := default LTCG_SINGLE (LTCG_BRACKETS !! filing_status)) in *.
  pose proof (federal_loop_slope 0 0.20 bs (floor + P1) (floor + P2)
                0.0 0.0 (Fin 0) 0.10 0.10 Hc ltac:(lra)) as Hs.
  cbv zeta in Hs. cbn [beyond] in Hs. revert Hs.
  generalize (Q.max_spec 0 (floor + P1 - 0)).
  generalize (Qmax 0 (floor + P1 - 0)). intros b1 Hb1.
  generalize (Q.max_spec 0 (floor + P2 - 0)).
  generalize (Qmax 0 (floor + P2 - 0)). intros b2 Hb2 [Hs1 Hs2].
  set (G1 := fst (federal_loop (floor + P1) bs 0.0 (Fin 0) 0.10)) in *.
  set (G2 := fst (federal_loop (floor + P2) bs 0.0 (Fin 0) 0.10)) in *.
  set (G0 := fst (federal_loop floor bs 0.0 (Fin 0) 0.10)) in *.
  clearbody G1 G2 G0.
  destruct Hb1 as [[? ?] | [? ?]], Hb2 as [[? ?] | [? ?]]; split; lra.
Qed.

Lemma stacking_continuity_witness :
  let tax P := calculate_ltcg_tax P 0 (40000 + P) SINGLE in
  0 <= tax 9000 - tax 5000 /\ tax 9000 - tax 5000 <= 0.20 * (9000 - 5000).
Proof.
  apply (stacking_continuity 40000 5000 9000 SINGLE);
    [vm_compute; reflexivity | vm_compute; discriminate].
Defined.
